(** * SICA chat client: tool dispatcher and orchestration loop

    A shallow embedding of [src/tools.tsx] (tool registry, mock tool
    bodies, [callTool]) and of the chat page script ([addMessage],
    [handleFormSubmit], [setLoading]), followed by the properties of the
    dispatcher and of the function-calling loop.

    Conventions of the embedding.
    - A JavaScript string is a Rocq [string]: the bytes of its UTF-8
      form, a surrogate without its partner being written as the three
      bytes [ED A0..BF 80..BF] (the generalised form known as WTF-8), so
      that every string of the script has its bytes.
    - A JavaScript value reaching the tools is JSON data, the type
      [value].  The script never computes with a Number it is given: it
      prints it, tests it for truth and passes it on; such a Number is
      carried as the text Number::toString gives for it ([VNum "75"],
      [VNum "0.5"], [VNum "1e+21"]).
    - What the script gets from outside (random draws, the clock, the
      network, the hosted model, the wording of engine-raised errors) is
      read from a [World]; every consultation is numbered by a counter kept
      in the page state, so that two consultations may answer differently.
    - [async]/[await] in the script is strictly sequential, so a call is a
      computation in the monad [M]: state passing plus exceptions, with the
      state kept when an exception is raised. *)

From Stdlib Require Import ZArith List String Ascii Bool Lia.
From Stdlib Require Import DecimalString.
Import ListNotations.
Local Open Scope string_scope.
Local Open Scope Z_scope.
Set Warnings "-register-all".

(* ================================================================== *)
(** ** JavaScript values *)
(* ================================================================== *)

Module JS.

Inductive value : Type :=
| VUndefined
| VNull
| VBool (b : bool)
| VNum (printed : string)
| VStr (s : string)
| VArr (items : list value)
| VObj (fields : list (string * value)).

(** The line feed written [\n] in the script. *)
Definition LF : string := String (ascii_of_nat 10) EmptyString.

(** Number::toString on an integer the script computes itself (a
    temperature, an HTTP status): far below 2^53, it prints as its
    decimal writing. *)
Definition numberToString (z : Z) : string :=
  NilZero.string_of_int (Z.to_int z).

(** [Array.prototype.join]: the pieces separated by [sep]. *)
Fixpoint join (sep : string) (pieces : list string) : string :=
  match pieces with
  | [] => ""
  | [p] => p
  | p :: rest => p ++ sep ++ join sep rest
  end.

(** Whether an object has an own property [key]. *)
Definition hasOwn (key : string) (fields : list (string * value)) : bool :=
  existsb (fun kv => String.eqb (fst kv) key) fields.

(** The abstract operation ToString, as a template literal applies it to
    an interpolated value; [None] when it throws a [TypeError].  An array
    prints its elements joined by commas, with nothing for [undefined]
    and [null].  A plain object prints as [[object Object]] through the
    [toString] it inherits; an own property [toString] hides that one,
    and as JSON data is never callable the conversion then fails. *)
Fixpoint toString (v : value) : option string :=
  match v with
  | VUndefined => Some "undefined"
  | VNull => Some "null"
  | VBool true => Some "true"
  | VBool false => Some "false"
  | VNum printed => Some printed
  | VStr s => Some s
  | VArr items =>
      option_map (join ",")
        ((fix pieces (l : list value) : option (list string) :=
            match l with
            | [] => Some []
            | x :: rest =>
                match match x with
                      | VUndefined | VNull => Some ""
                      | _ => toString x
                      end with
                | None => None
                | Some piece =>
                    match pieces rest with
                    | None => None
                    | Some others => Some (piece :: others)
                    end
                end
            end) items)
  | VObj fields =>
      if hasOwn "toString" fields then None else Some "[object Object]"
  end.

(** Whether [v.toLocaleString()] returns.  It throws on [undefined] and
    [null]; on an object with an own property [toLocaleString] (never
    callable), or with an own [toString], which the inherited
    [toLocaleString] calls; on an array when it does for an element that
    is neither [undefined] nor [null]. *)
Fixpoint localizable (v : value) : bool :=
  match v with
  | VUndefined | VNull => false
  | VArr items =>
      forallb (fun x => match x with
                        | VUndefined | VNull => true
                        | _ => localizable x
                        end) items
  | VObj fields =>
      negb (hasOwn "toLocaleString" fields) && negb (hasOwn "toString" fields)
  | _ => true
  end.

(** ToBoolean: the falsy values are [undefined], [null], [false], zero,
    [NaN] and the empty string. *)
Definition truthy (v : value) : bool :=
  match v with
  | VUndefined | VNull | VBool false | VStr "" => false
  | VNum printed => negb (String.eqb printed "0" || String.eqb printed "NaN")
  | _ => true
  end.

(** Lookup of an own property in the fields of an object. *)
Fixpoint lookup (key : string) (fields : list (string * value)) : value :=
  match fields with
  | [] => VUndefined
  | (k, v) :: rest => if String.eqb k key then v else lookup key rest
  end.

(** Strict equality [v === s] against a string literal. *)
Definition isString (v : value) (s : string) : bool :=
  match v with
  | VStr t => String.eqb t s
  | _ => false
  end.

End JS.
Import JS.

(* ================================================================== *)
(** ** Strings: the built-ins the tools use *)
(* ================================================================== *)

Module Str.

(** [String.prototype.toLowerCase], on the ASCII letters.  No character
    outside ASCII lowers to an ASCII [e], [r] or [o], so the search for
    ['error'] below sees what the script sees. *)
Definition lowerAscii (c : ascii) : ascii :=
  let n := nat_of_ascii c in
  if (65 <=? n)%nat && (n <=? 90)%nat then ascii_of_nat (n + 32) else c.

Fixpoint toLowerCase (s : string) : string :=
  match s with
  | EmptyString => EmptyString
  | String c rest => String (lowerAscii c) (toLowerCase rest)
  end.

(** [String.prototype.includes]. *)
Fixpoint includes (s sub : string) : bool :=
  String.prefix sub s
  || match s with
     | EmptyString => false
     | String _ rest => includes rest sub
     end.

Definition hexDigit (n : nat) : ascii :=
  if (n <? 10)%nat then ascii_of_nat (48 + n) else ascii_of_nat (55 + n).

(** The characters [encodeURIComponent] leaves alone:
    [A-Z a-z 0-9 - _ . ! ~ * ' ( )]. *)
Definition uriUnreserved (c : ascii) : bool :=
  let n := nat_of_ascii c in
  ((65 <=? n) && (n <=? 90) || (97 <=? n) && (n <=? 122)
   || (48 <=? n) && (n <=? 57)
   || existsb (Nat.eqb n) [45; 95; 46; 33; 126; 42; 39; 40; 41])%nat.

(** A surrogate without its partner starts here: the byte [ED] followed
    by a byte of [A0..BF]. *)
Definition loneSurrogate (c : ascii) (rest : string) : bool :=
  (nat_of_ascii c =? 237)%nat
  && match rest with
     | String d _ => ((160 <=? nat_of_ascii d) && (nat_of_ascii d <=? 191))%nat
     | EmptyString => false
     end.

(** [encodeURIComponent]: every byte that is not unreserved becomes
    [%XX]; [None] when it throws a [URIError], which it does on a
    surrogate without its partner. *)
Fixpoint encodeURIComponent (s : string) : option string :=
  match s with
  | EmptyString => Some EmptyString
  | String c rest =>
      if loneSurrogate c rest then None
      else
        match encodeURIComponent rest with
        | None => None
        | Some encoded =>
            if uriUnreserved c then Some (String c encoded)
            else
              let n := nat_of_ascii c in
              Some (String "%" (String (hexDigit (n / 16))
                                  (String (hexDigit (n mod 16)) encoded)))
        end
  end.

End Str.
(* ================================================================== *)
(** ** Double-precision arithmetic of [getWeather] *)
(* ================================================================== *)

Module Float.

(** A double in the unit interval, as [Math.random] returns it: the
    number [mant / 2^scale]. *)
Record unitDouble : Type := mkUnit { mant : Z; scale : Z }.

(** The doubles of [[0, 1)] are exactly the [mant / 2^scale] with a
    mantissa of at most 53 bits and a scale between 53 and 1074. *)
Definition inUnitInterval (d : unitDouble) : Prop :=
  0 <= mant d < 2 ^ 53 /\ 53 <= scale d <= 1074.

(** Rounding of a non-negative integer to 53 significant bits, to nearest
    with ties to even: the rounding of every double operation. *)
Definition round53 (m : Z) : Z :=
  let d := Z.log2 m - 52 in
  if d <=? 0 then m
  else
    let q := m / 2 ^ d in
    let r := m mod 2 ^ d in
    let half := 2 ^ (d - 1) in
    let q' := if (half <? r) || ((r =? half) && Z.odd q) then q + 1 else q in
    q' * 2 ^ d.

(** [Math.floor(x * 40)] for a double [x] of the unit interval: the
    product is rounded to a double, then floored.  (The product is a
    multiple of [2^-scale], so it is never too small to represent.) *)
Definition floorTimes40 (d : unitDouble) : Z :=
  round53 (mant d * 40) / 2 ^ scale d.

End Float.

(* ================================================================== *)
(** ** Conversation turns, the outside world, the page *)
(* ================================================================== *)

(** A thrown [Error]; the script only ever reads its [message]. *)
Record Exn : Type := mkExn { message : string }.

(** A tool-call request of the model ([FunctionCall] of the SDK). *)
Record FunctionCall : Type := mkCall { name : string; args : value }.

(** [Part] and [Content] of the SDK: one turn of the conversation. *)
Inductive Part : Type :=
| TextPart (text : string)
| FunctionCallPart (call : FunctionCall)
| FunctionResponsePart (fname : string) (response : value).

Record Content : Type := mkContent { role : string; parts : list Part }.

(** What the script reads of a [GenerateContentResponse]. *)
Record Response : Type := mkResponse {
  functionCalls : option (list FunctionCall);
  candidate0 : Content;              (* [candidates[0].content] *)
  text : string
}.

(** What [fetch] settles to.  [ok] is, by the Fetch standard, a status in
    the range 200-299. *)
Inductive JsonOutcome : Type :=
| JsonValue (v : value)
| JsonRejects (e : Exn).

Record FetchResponse : Type := mkFetchResponse {
  status : Z;                        (* an HTTP status, three digits *)
  json : JsonOutcome                 (* what [response.json()] settles to *)
}.

Definition ok (r : FetchResponse) : bool :=
  (200 <=? status r) && (status r <=? 299).

Inductive FetchOutcome : Type :=
| FetchRejects (e : Exn)
| FetchResolves (r : FetchResponse).

(** Everything the script consults outside itself.  The [nat] is the
    number of the consultation. *)
Record World : Type := mkWorld {
  Math_random : nat -> Float.unitDouble;
  toLocaleTimeString : nat -> string;
  fetch : nat -> string -> FetchOutcome;
  generateContent : nat -> list Content -> Exn + Response;
  (** the message of the [TypeError] the engine raises at a faulty
      expression, for the value it could not use *)
  typeErrorMessage : string -> value -> string;
  (** the message of the [URIError] of [encodeURIComponent] *)
  uriErrorMessage : string
}.

(** The elements [addMessage] appends to [#messages].  The fixed markup
    is left out; what is kept is the class of the element and the values
    interpolated in it. *)
Inductive MessageType : Type := user | model | tool_call | tool_result.

Record RepoItem : Type := mkRepoItem {
  repo_url : string;
  repo_name : string;
  repo_stars : value;                (* printed with [toLocaleString] *)
  repo_description : string
}.

Inductive MessageBody : Type :=
| TextContent (s : string)
| ToolCallBox (functionName : string) (shownArgs : value)
| RepoListBox (functionName : string) (msg : string) (repos : list RepoItem)
| JsonDumpBox (functionName : string) (shownResult : value).

Record MessageEl : Type := mkMessageEl {
  class : MessageType;
  body : MessageBody
}.

(** The page: the message list, the loading state that [setLoading]
    switches (spinner shown, button and input disabled), and, as a record
    of what crossed the model boundary, the [contents] of every
    [generateContent] call so far, oldest first. *)
Record Page : Type := mkPage {
  messages : list MessageEl;
  loading : bool;
  requests : list (list Content);
  ticks : nat
}.

(* ================================================================== *)
(** ** The monad of the script *)
(* ================================================================== *)

(** A computation ends by returning, by throwing, or is still running
    when the fuel given to the [while] loop is spent. *)
Inductive Outcome (A : Type) : Type :=
| Returned (a : A) (p : Page)
| Thrown (e : Exn) (p : Page)
| Running (p : Page).
Arguments Returned {A} a p.
Arguments Thrown {A} e p.
Arguments Running {A} p.

Definition M (A : Type) : Type := Page -> Outcome A.

Definition ret {A} (a : A) : M A := fun p => Returned a p.

Definition throw {A} (e : Exn) : M A := fun p => Thrown e p.

Definition bind {A B} (c : M A) (k : A -> M B) : M B :=
  fun p =>
    match c p with
    | Returned a p' => k a p'
    | Thrown e p' => Thrown e p'
    | Running p' => Running p'
    end.

(** [try { c } catch (e) { handler e }] *)
Definition tryCatch {A} (c : M A) (handler : Exn -> M A) : M A :=
  fun p =>
    match c p with
    | Returned a p' => Returned a p'
    | Thrown e p' => handler e p'
    | Running p' => Running p'
    end.

(** [try { c } finally { f }], for an [f] that neither returns a value
    nor throws. *)
Definition tryFinally {A} (c : M A) (f : Page -> Page) : M A :=
  fun p =>
    match c p with
    | Returned a p' => Returned a (f p')
    | Thrown e p' => Thrown e (f p')
    | Running p' => Running p'
    end.

Declare Scope js_scope.
Delimit Scope js_scope with js.
Notation "x <- c ;; k" := (bind c (fun x => k))
  (at level 61, c at next level, right associativity) : js_scope.
Notation "c ;; k" := (bind c (fun _ => k))
  (at level 61, right associativity) : js_scope.
Local Open Scope js_scope.

(** A pure step that may throw. *)
Definition lift {A} (r : Exn + A) : M A :=
  match r with
  | inl e => throw e
  | inr a => ret a
  end.

(** Sequencing of pure steps that may throw. *)
Definition bindE {A B} (r : Exn + A) (k : A -> Exn + B) : Exn + B :=
  match r with
  | inl e => inl e
  | inr a => k a
  end.

Notation "x <~ r ;; k" := (bindE r (fun x => k))
  (at level 61, r at next level, right associativity) : js_scope.

(** [Array.prototype.map] with a callback that may throw. *)
Fixpoint mapThrowing {A B} (f : A -> Exn + B) (l : list A) : Exn + list B :=
  match l with
  | [] => inr []
  | x :: rest =>
      y <~ f x ;;
      ys <~ mapThrowing f rest ;;
      inr (y :: ys)
  end.

(** The number of the next consultation of the world. *)
Definition tick : M nat :=
  fun p => Returned (ticks p)
             (mkPage (messages p) (loading p) (requests p) (S (ticks p))).

(** The page left by a computation, however it ended. *)
Definition pageOf {A} (o : Outcome A) : Page :=
  match o with
  | Returned _ p | Thrown _ p | Running p => p
  end.

(* ================================================================== *)
(** ** [src/tools.tsx] *)
(* ================================================================== *)

Module Tools.

(** *** 1. Tool definitions *)

Inductive ParamType : Type := STRING | NUMBER.

Record Property : Type := mkProperty {
  prop_name : string;
  prop_type : ParamType;
  prop_enum : list string;
  prop_description : string
}.

Record FunctionDeclaration : Type := mkDecl {
  decl_name : string;
  description : string;
  properties : list Property;
  required : list string
}.

Definition functionDeclarations : list FunctionDeclaration :=
  [ mkDecl "getWeather" "Get the current weather in a given location."
      [ mkProperty "location" STRING []
          "The city and state, e.g. San Francisco, CA";
        mkProperty "unit" STRING ["celsius"; "fahrenheit"]
          "The unit of temperature." ]
      ["location"];
    mkDecl "getCurrentTime" "Get the current time in a given location."
      [ mkProperty "location" STRING [] "The city, e.g. Tokyo" ]
      ["location"];
    mkDecl "controlFan" "Control the speed and mode of a fan."
      [ mkProperty "speed" NUMBER [] "The speed of the fan, from 0 to 100.";
        mkProperty "mode" STRING ["low"; "medium"; "high"]
          "The mode of the fan." ]
      ["speed"; "mode"];
    mkDecl "search_github_repo"
      "Find best practices in open-source repositories and documentation."
      [ mkProperty "search_term" STRING []
          "The topic or library to search for." ]
      ["search_term"];
    mkDecl "execute_code"
      "Execute Python code in a sandboxed environment for immediate testing and efficiency verification (use computer)."
      [ mkProperty "code_block" STRING [] "The Python code to execute." ]
      ["code_block"];
    mkDecl "retrieve_knowledge"
      "Search and retrieve architectural expertise and lessons learned from long-term memory (Vector DB)."
      [ mkProperty "query" STRING []
          "The expertise or lesson to search for in the knowledge base." ]
      ["query"];
    mkDecl "perform_code_critique"
      "Analyze execution logs and provide feedback or lessons learned from the code execution."
      [ mkProperty "code_block" STRING [] "The code that was executed.";
        mkProperty "execution_logs" STRING []
          "The logs or output from the code execution." ]
      ["code_block"; "execution_logs"] ].

(** *** Property reads and printing *)

Section WithWorld.

Variable W : World.

Definition typeError {A} (site : string) (v : value) : Exn + A :=
  inl (mkExn (typeErrorMessage W site v)).

(** [v.key]: a [TypeError] on [undefined] and [null]; none of the keys
    read this way exists on a primitive or on an array. *)
Definition getProp (site : string) (v : value) (key : string) : Exn + value :=
  match v with
  | VUndefined | VNull => typeError site v
  | VObj fields => inr (lookup key fields)
  | _ => inr VUndefined
  end.

(** [${v}] in a template literal: the text of [v], or the [TypeError]
    of a value that cannot be printed. *)
Definition print (site : string) (v : value) : Exn + string :=
  match toString v with
  | Some text => inr text
  | None => typeError site v
  end.

(** A parameter default, [key = dflt] in a destructuring pattern. *)
Definition orDefault (v dflt : value) : value :=
  match v with
  | VUndefined => dflt
  | _ => v
  end.

(** *** 2. Mock function implementations *)

Definition getWeather (args : value) : M value :=
  location <- lift (getProp "{location, unit}" args "location") ;;
  unit0 <- lift (getProp "{location, unit}" args "unit") ;;
  let unit := orDefault unit0 (VStr "fahrenheit") in
  n <- tick ;;
  let temp := Float.floorTimes40 (Math_random W n) + 10 in
  ret (VObj
         [ ("temperature",
            VStr (numberToString temp ++ "° "
                  ++ (if isString unit "celsius" then "C" else "F")));
           ("location", location) ]).

Definition getCurrentTime (args : value) : M value :=
  location <- lift (getProp "{location}" args "location") ;;
  n <- tick ;;
  ret (VObj [ ("time", VStr (toLocaleTimeString W n));
              ("location", location) ]).

Definition controlFan (args : value) : M value :=
  speed <- lift (getProp "{speed, mode}" args "speed") ;;
  mode <- lift (getProp "{speed, mode}" args "mode") ;;
  speedText <- lift (print "${speed}" speed) ;;
  modeText <- lift (print "${mode}" mode) ;;
  ret (VObj
         [ ("status", VStr "success");
           ("message",
            VStr ("Fan set to " ++ speedText ++ "% speed in "
                  ++ modeText ++ " mode.")) ]).

Definition GITHUB_API_URL : string :=
  "https://api.github.com/search/repositories".

(** [await response.json()] *)
Definition awaitJson (r : FetchResponse) : Exn + value :=
  match json r with
  | JsonValue v => inr v
  | JsonRejects e => inl e
  end.

(** The callback of [data.items.map]. *)
Definition repoSummary (repo : value) : Exn + value :=
  full_name <~ getProp "repo.full_name" repo "full_name" ;;
  html_url <~ getProp "repo.html_url" repo "html_url" ;;
  description <~ getProp "repo.description" repo "description" ;;
  stargazers_count <~ getProp "repo.stargazers_count" repo "stargazers_count" ;;
  inr (VObj [ ("name", full_name); ("url", html_url);
              ("description", description); ("stars", stargazers_count) ]).

(** [data.items.map(...)]: [items] has to be an array. *)
Definition mapItems (items : value) : Exn + value :=
  match items with
  | VArr repos =>
      results <~ mapThrowing repoSummary repos ;;
      inr (VArr results)
  | _ => typeError "data.items.map" items
  end.

(** The body of the [try] block, once [fetch] has resolved. *)
Definition searchBody (response : FetchResponse) : Exn + value :=
  if negb (ok response) then
    errorData <~ awaitJson response ;;
    msg <~ getProp "errorData.message" errorData "message" ;;
    msgText <~ print "${errorData.message}" msg ;;
    inl (mkExn ("GitHub API error! status: "
                ++ numberToString (status response)
                ++ ", message: " ++ msgText))
  else
    data <~ awaitJson response ;;
    items <~ getProp "data.items" data "items" ;;
    results <~ mapItems items ;;
    total_count <~ getProp "data.total_count" data "total_count" ;;
    totalText <~ print "${data.total_count}" total_count ;;
    inr (VObj
           [ ("status", VStr "success");
             ("results_count", total_count);
             ("top_results", results);
             ("message",
              VStr ("Found " ++ totalText
                    ++ " repositories. Returning top 5 sorted by stars.")) ]).

Definition searchFailure (error : Exn) : value :=
  VObj [ ("status", VStr "failure");
         ("error", VStr ("GitHub API request failed: " ++ message error));
         ("message", VStr "Could not fetch repository data from GitHub.") ].

(** The URL of the search: the term is printed and encoded, either of
    which may throw. *)
Definition searchUrl (search_term : value) : Exn + string :=
  termText <~ print "${search_term}" search_term ;;
  match Str.encodeURIComponent
          (termText ++ " in:name,description,readme") with
  | None => inl (mkExn (uriErrorMessage W))
  | Some query =>
      inr (GITHUB_API_URL ++ "?q=" ++ query
           ++ "&sort=stars&order=desc&per_page=5")
  end.

(** The URL is built before the [try] block is entered. *)
Definition search_github_repo (args : value) : M value :=
  search_term <- lift (getProp "{search_term}" args "search_term") ;;
  url <- lift (searchUrl search_term) ;;
  tryCatch
    (n <- tick ;;
     match fetch W n url with
     | FetchRejects e => throw e
     | FetchResolves response => lift (searchBody response)
     end)
    (fun error => ret (searchFailure error)).

(** The half-second wait and the console line leave no trace here. *)
Definition execute_code (args : value) : M value :=
  code_block <- lift (getProp "{code_block}" args "code_block") ;;
  codeText <- lift (print "${code_block}" code_block) ;;
  ret (VObj
         [ ("status", VStr "success");
           ("output",
            VStr ("[Mock Execution] Code block received:" ++ LF ++ "---" ++ LF
                  ++ codeText ++ LF ++ "---"));
           ("error", VNull);
           ("message", VStr "Code executed in a mocked secure environment.") ]).

Definition retrieve_knowledge (args : value) : M value :=
  query <- lift (getProp "{query}" args "query") ;;
  queryText <- lift (print "${query}" query) ;;
  ret (VObj
         [ ("knowledge",
            VStr ("Mock knowledge retrieved for query: '" ++ queryText
                  ++ "'. SICA agents should be modular.")) ]).

Definition lessonLearned : string :=
  "Lesson Learned: The code failed. It's crucial to implement robust error handling, perhaps with try-catch blocks, to manage unexpected failures gracefully.".

Definition goodStart : string :=
  "This is a good start, but consider adding more comments and edge case handling for production environments.".

(** The first value of [critique], from the two printed arguments. *)
Definition critiqueHead (codeText logsText : string) : string :=
  "Critique for code:" ++ LF ++ "---" ++ LF ++ codeText ++ LF
  ++ "---" ++ LF ++ "Based on logs:" ++ LF ++ "---" ++ LF
  ++ logsText ++ LF ++ "---" ++ LF.

(** [execution_logs.toLowerCase()] exists on strings only. *)
Definition perform_code_critique (args : value) : M value :=
  code_block <- lift (getProp "{code_block, execution_logs}" args "code_block") ;;
  execution_logs <-
    lift (getProp "{code_block, execution_logs}" args "execution_logs") ;;
  codeText <- lift (print "${code_block}" code_block) ;;
  logsText <- lift (print "${execution_logs}" execution_logs) ;;
  let critique := critiqueHead codeText logsText in
  match execution_logs with
  | VStr logs =>
      if Str.includes (Str.toLowerCase logs) "error"
      then ret (VObj [ ("critique", VStr (critique ++ lessonLearned)) ])
      else ret (VObj [ ("critique", VStr (critique ++ goodStart)) ])
  | _ => lift (typeError "execution_logs.toLowerCase" execution_logs)
  end.

(** *** 3. Tool dispatcher *)

Definition callTool (functionName : string) (args : value) : M value :=
  if String.eqb functionName "getWeather" then getWeather args
  else if String.eqb functionName "getCurrentTime" then getCurrentTime args
  else if String.eqb functionName "controlFan" then controlFan args
  else if String.eqb functionName "search_github_repo" then search_github_repo args
  else if String.eqb functionName "execute_code" then execute_code args
  else if String.eqb functionName "retrieve_knowledge" then retrieve_knowledge args
  else if String.eqb functionName "perform_code_critique"
       then perform_code_critique args
  else throw (mkExn ("Unknown function: " ++ functionName)).

End WithWorld.

End Tools.
(* ================================================================== *)
(** ** The page script: [addMessage], [handleFormSubmit], [setLoading] *)
(* ================================================================== *)

Module Chat.

(** [MessagePayload] *)
Inductive MessagePayload : Type :=
| PString (s : string)
| PCall (functionName : string) (args : value)
| PResult (functionName : string) (result : value).

(** An entry of [toolResponses]. *)
Record ToolResponse : Type := mkToolResponse {
  tr_name : string;
  tr_response : value
}.

Definition appendChild (el : MessageEl) : M unit :=
  fun p => Returned tt
             (mkPage (messages p ++ [el]) (loading p) (requests p) (ticks p)).

Definition setLoading (isLoading : bool) (p : Page) : Page :=
  mkPage (messages p) isLoading (requests p) (ticks p).

Section WithWorld.

Variable W : World.

(** One [<li>] of the repository list: the address and the name are
    printed, the star count is put in the words of the locale, the
    description is printed unless it is falsy. *)
Definition repoItem (repo : value) : Exn + RepoItem :=
  url <~ Tools.getProp W "repo.url" repo "url" ;;
  urlText <~ Tools.print W "${repo.url}" url ;;
  rname <~ Tools.getProp W "repo.name" repo "name" ;;
  nameText <~ Tools.print W "${repo.name}" rname ;;
  stars <~ Tools.getProp W "repo.stars" repo "stars" ;;
  _ <~ (if localizable stars then inr tt
        else Tools.typeError W "repo.stars.toLocaleString" stars) ;;
  description <~ Tools.getProp W "repo.description" repo "description" ;;
  descriptionText <~
    (if truthy description
     then Tools.print W "${repo.description}" description
     else inr "No description available.") ;;
  inr (mkRepoItem urlText nameText stars descriptionText).

(** The markup of a tool result: the repository list for a successful
    [search_github_repo], the JSON dump for everything else. *)
Definition resultHtml (functionName : string) (result : value)
  : Exn + MessageBody :=
  if String.eqb functionName "search_github_repo" then
    status <~ Tools.getProp W "payload.result.status" result "status" ;;
    if isString status "success" then
      repos <~ Tools.getProp W "payload.result.top_results" result "top_results" ;;
      msg <~ Tools.getProp W "payload.result.message" result "message" ;;
      msgText <~ Tools.print W "${payload.result.message}" msg ;;
      match repos with
      | VArr l =>
          items <~ mapThrowing repoItem l ;;
          inr (RepoListBox functionName msgText items)
      | _ => Tools.typeError W "repos.map" repos
      end
    else inr (JsonDumpBox functionName result)
  else inr (JsonDumpBox functionName result).

Definition addMessage (payload : MessagePayload) (type : MessageType)
  : M unit :=
  match type, payload with
  | tool_call, PCall functionName args =>
      appendChild (mkMessageEl type (ToolCallBox functionName args))
  | tool_result, PResult functionName result =>
      b <- lift (resultHtml functionName result) ;;
      appendChild (mkMessageEl type b)
  | _, PString s => appendChild (mkMessageEl type (TextContent s))
  | _, _ => appendChild (mkMessageEl type (TextContent "[object Object]"))
  end.

Definition userMessage (prompt : string) : Content :=
  mkContent "user" [TextPart prompt].

(** [await ai.models.generateContent({contents: history, ...})]; the
    system instruction and the tool declarations are the same in every
    call. *)
Definition callModel (history : list Content) : M Response :=
  n <- tick ;;
  (fun p => Returned tt
              (mkPage (messages p) (loading p) (requests p ++ [history])
                 (ticks p))) ;;
  lift (generateContent W n history).

Definition errorResult (e : Exn) : value :=
  VObj [ ("error", VStr ("Function Execution Failed: " ++ message e)) ].

(** The body of the [for] loop: one requested call, from its
    announcement to the entry pushed on [toolResponses]. *)
Definition dispatch (call : FunctionCall) : M ToolResponse :=
  let functionName := name call in
  let args := args call in
  addMessage (PCall functionName args) tool_call ;;
  tryCatch
    (resultOutput <- Tools.callTool W functionName args ;;
     addMessage (PResult functionName resultOutput) tool_result ;;
     ret (mkToolResponse functionName resultOutput))
    (fun e =>
       addMessage (PResult functionName (errorResult e)) tool_result ;;
       ret (mkToolResponse functionName (errorResult e))).

(** [for (const call of functionCalls) { ... toolResponses.push(...) }] *)
Fixpoint forEachCall (functionCalls : list FunctionCall)
    (toolResponses : list ToolResponse) : M (list ToolResponse) :=
  match functionCalls with
  | [] => ret toolResponses
  | call :: rest =>
      r <- dispatch call ;;
      forEachCall rest (toolResponses ++ [r])%list
  end.

Definition toolParts (toolResponses : list ToolResponse) : list Part :=
  map (fun r => FunctionResponsePart (tr_name r) (tr_response r))
    toolResponses.

(** The turn that answers a batch of requests. *)
Definition toolTurn (toolResponses : list ToolResponse) : Content :=
  mkContent "tool" (toolParts toolResponses).

(** The requests the loop condition sees: none when [functionCalls] is
    [undefined] or empty. *)
Definition pendingCalls (currentResponse : Response) : list FunctionCall :=
  match functionCalls currentResponse with
  | Some calls => calls
  | None => []
  end.

(** One pass through the body of the [while] loop: the new value of
    [history] and of [currentResponse]. *)
Definition iteration (history : list Content) (currentResponse : Response)
  : M (list Content * Response) :=
  let history := (history ++ [candidate0 currentResponse])%list in
  toolResponses <- forEachCall (pendingCalls currentResponse) [] ;;
  let history := (history ++ [toolTurn toolResponses])%list in
  currentResponse <- callModel history ;;
  ret (history, currentResponse).

(** The multi-turn function calling loop.  It has no bound of its own:
    [fuel] is the number of passes followed. It returns [history] and
    [currentResponse] as they are when the loop is left. *)
Fixpoint whileLoop (fuel : nat) (history : list Content)
    (currentResponse : Response) : M (list Content * Response) :=
  match pendingCalls currentResponse with
  | [] => ret (history, currentResponse)
  | _ :: _ =>
      match fuel with
      | O => fun p => Running p
      | S fuel' =>
          hr <- iteration history currentResponse ;;
          whileLoop fuel' (fst hr) (snd hr)
      end
  end.

(** What the [try] block does once a response is in hand: the loop,
    then the display of the final response.  Its value is [history] as
    it is at the end of the block, where the variable goes out of
    scope. *)
Definition respond (fuel : nat) (history : list Content)
    (currentResponse : Response) : M (list Content) :=
  hr <- whileLoop fuel history currentResponse ;;
  addMessage (PString (text (snd hr))) model ;;
  ret (fst hr).

(** The [try] block of [handleFormSubmit]: a new [history], holding the
    user turn alone, and the first call of the model. *)
Definition tryBlock (fuel : nat) (prompt : string) : M (list Content) :=
  let history := [userMessage prompt] in
  currentResponse <- callModel history ;;
  respond fuel history currentResponse.

(** [prompt] is [inputEl.value.trim()], read when the form is submitted;
    the reset of the form has no other trace here. *)
Definition handleFormSubmit (fuel : nat) (prompt : string) : M unit :=
  if String.eqb prompt "" then ret tt
  else
    (fun p => Returned tt (setLoading true p)) ;;
    addMessage (PString prompt) user ;;
    tryFinally
      (tryCatch
         (tryBlock fuel prompt ;; ret tt)
         (fun error =>
            addMessage (PString "An error occurred. Please check the console.")
              model))
      (setLoading false).

End WithWorld.

End Chat.

(* ================================================================== *)
(** ** Sample worlds and calls *)
(* ================================================================== *)

Module Sample.

(** A model that answers in plain text, whatever it is sent. *)
Definition plainAnswer : Response :=
  mkResponse None (mkContent "model" [TextPart "It is noon."]) "It is noon.".

(** A world with no network, a model that never asks for a tool, and a
    random source stuck at one half. *)
Definition offline : World :=
  mkWorld
    (fun _ => Float.mkUnit (2 ^ 52) 53)
    (fun _ => "12:00:00 PM")
    (fun _ _ => FetchRejects (mkExn "Failed to fetch"))
    (fun _ _ => inr plainAnswer)
    (fun site v =>
       match v with
       | VUndefined => "Cannot read properties of undefined (" ++ site ++ ")"
       | VNull => "Cannot read properties of null (" ++ site ++ ")"
       | VObj _ => "Cannot convert object to primitive value (" ++ site ++ ")"
       | _ => site ++ " is not a function"
       end)
    "URI malformed".

Definition emptyPage : Page := mkPage [] false [] 0.

(** A request for a tool that does not exist, one for the repository
    search, one for the fan. *)
Definition launchRocket : FunctionCall :=
  mkCall "launchRocket" (VObj [("target", VStr "moon")]).

Definition searchRocq : FunctionCall :=
  mkCall "search_github_repo" (VObj [("search_term", VStr "rocq prover")]).

Definition fanHigh : FunctionCall :=
  mkCall "controlFan" (VObj [("speed", VNum "75"); ("mode", VStr "high")]).

(** A model turn asking for those three calls at once. *)
Definition threeCalls : Response :=
  mkResponse (Some [launchRocket; searchRocq; fanHigh])
    (mkContent "model"
       [ FunctionCallPart launchRocket; FunctionCallPart searchRocq;
         FunctionCallPart fanHigh ])
    "".

(** The same world with a model that asks for the three calls first and
    answers in text once it has been sent their results. *)
Definition agentic : World :=
  mkWorld
    (Math_random offline) (toLocaleTimeString offline) (fetch offline)
    (fun _ history =>
       if (List.length history <=? 1)%nat then inr threeCalls
       else inr plainAnswer)
    (typeErrorMessage offline) (uriErrorMessage offline).

(** A model that asks for the fan again and again. *)
Definition fanAgain : Response :=
  mkResponse (Some [fanHigh]) (mkContent "model" [FunctionCallPart fanHigh]) "".

Definition insistent : World :=
  mkWorld
    (Math_random offline) (toLocaleTimeString offline) (fetch offline)
    (fun _ _ => inr fanAgain)
    (typeErrorMessage offline) (uriErrorMessage offline).

(** A world whose model cannot be reached. *)
Definition modelDown : World :=
  mkWorld
    (Math_random offline) (toLocaleTimeString offline) (fetch offline)
    (fun _ _ => inl (mkExn "503 Service Unavailable"))
    (typeErrorMessage offline) (uriErrorMessage offline).

(** Two repositories as the search API lists them, the second without a
    description and without a star count. *)
Definition rocqRepo : value :=
  VObj [ ("full_name", VStr "rocq-prover/rocq");
         ("html_url", VStr "https://github.com/rocq-prover/rocq");
         ("description", VStr "The Rocq Prover");
         ("stargazers_count", VNum "5000") ].

Definition bareRepo : value :=
  VObj [ ("full_name", VStr "someone/notes");
         ("html_url", VStr "https://github.com/someone/notes") ].

Definition oneRepoBody : FetchResponse :=
  mkFetchResponse 200
    (JsonValue (VObj [("total_count", VNum "1"); ("items", VArr [rocqRepo])])).

Definition bareRepoBody : FetchResponse :=
  mkFetchResponse 200
    (JsonValue
       (VObj [("total_count", VNum "2"); ("items", VArr [rocqRepo; bareRepo])])).

(** Worlds in which the search API answers with those bodies, and the
    model asks for one search before it answers. *)
Definition searchOnce : Response :=
  mkResponse (Some [searchRocq])
    (mkContent "model" [FunctionCallPart searchRocq]) "".

Definition online (body : FetchResponse) : World :=
  mkWorld
    (Math_random offline) (toLocaleTimeString offline)
    (fun _ _ => FetchResolves body)
    (fun _ history =>
       if (List.length history <=? 1)%nat then inr searchOnce
       else inr plainAnswer)
    (typeErrorMessage offline) (uriErrorMessage offline).

End Sample.


(* ================================================================== *)
(** ** Vocabulary of the statements *)
(* ================================================================== *)


(** The twenty-six letters, each small and capital. *)
Definition alphabet : list (ascii * ascii) :=
  [ ("a", "A"); ("b", "B"); ("c", "C"); ("d", "D"); ("e", "E"); ("f", "F");
    ("g", "G"); ("h", "H"); ("i", "I"); ("j", "J"); ("k", "K"); ("l", "L");
    ("m", "M"); ("n", "N"); ("o", "O"); ("p", "P"); ("q", "Q"); ("r", "R");
    ("s", "S"); ("t", "T"); ("u", "U"); ("v", "V"); ("w", "W"); ("x", "X");
    ("y", "Y"); ("z", "Z") ]%char.

(** Two characters are the same letter when they are equal or are the
    small and the capital form of one letter of the alphabet. *)
Definition sameLetter (a b : ascii) : bool :=
  Ascii.eqb a b
  || existsb (fun l => Ascii.eqb a (fst l) && Ascii.eqb b (snd l)
                       || Ascii.eqb a (snd l) && Ascii.eqb b (fst l))
       alphabet.

(** Two texts that read the same when the case of letters is ignored. *)
Fixpoint sameLetters (s t : string) : bool :=
  match s, t with
  | EmptyString, EmptyString => true
  | String a s', String b t' => sameLetter a b && sameLetters s' t'
  | _, _ => false
  end.

(** To contain a given word whatever the case of its letters: some part
    of the text reads as the word when case is ignored. *)
Definition ContainsIgnoringCase (s word : string) : Prop :=
  exists pre mid post,
    s = pre ++ mid ++ post /\ sameLetters mid word = true.

(** The draw [k / 64], [k] the least integer with [40 k >= 64 (n - 10)]:
    the one that makes [getWeather] report [n] degrees. *)
Definition drawFor (n : Z) : Float.unitDouble :=
  Float.mkUnit (((n - 10) * 64 + 39) / 40 * 2 ^ 47) 53.

(** A name is registered when a declaration carries it. *)
Definition registered (functionName : string) : Prop :=
  In functionName (map Tools.decl_name Tools.functionDeclarations).

(** The [case] labels of [callTool], each with the function it calls. *)
Definition executors (W : World) : list (string * (value -> M value)) :=
  [ ("getWeather", Tools.getWeather W);
    ("getCurrentTime", Tools.getCurrentTime W);
    ("controlFan", Tools.controlFan W);
    ("search_github_repo", Tools.search_github_repo W);
    ("execute_code", Tools.execute_code W);
    ("retrieve_knowledge", Tools.retrieve_knowledge W);
    ("perform_code_critique", Tools.perform_code_critique W) ].

Fixpoint executorOf (table : list (string * (value -> M value)))
    (functionName : string) : option (value -> M value) :=
  match table with
  | [] => None
  | (label, f) :: rest =>
      if String.eqb functionName label then Some f
      else executorOf rest functionName
  end.

(** The result the call site builds for a name the dispatcher does not
    know. *)
Definition unknownFailure (functionName : string) : value :=
  Chat.errorResult (mkExn ("Unknown function: " ++ functionName)).

(** The page [p] after more messages were shown and more consultations
    counted, nothing else having changed. *)
Definition advance (p : Page) (shown : list MessageEl) (n : nat) : Page :=
  mkPage (messages p ++ shown) (loading p) (requests p) (ticks p + n).

(** A computation settles when it ends, by a value or by an exception,
    and its only traces on the page are messages and consultations. *)
Definition Settles {A} (c : M A) : Prop :=
  forall p, exists shown n,
    (exists a, c p = Returned a (advance p shown n))
    \/ (exists e, c p = Thrown e (advance p shown n)).

(** It answers when, moreover, it never throws. *)
Definition Answers {A} (c : M A) : Prop :=
  forall p, exists a shown n, c p = Returned a (advance p shown n).

(** The exception a computation threw, if it did. *)
Definition thrown {A} (o : Outcome A) : option Exn :=
  match o with
  | Thrown e _ => Some e
  | _ => None
  end.

(** Two worlds run the script on the same engine when the engine words
    its own errors alike in both; the network, the model, the clock and
    the random source may differ. *)
Definition sameEngine (W1 W2 : World) : Prop :=
  (forall site v, typeErrorMessage W1 site v = typeErrorMessage W2 site v)
  /\ uriErrorMessage W1 = uriErrorMessage W2.

(** The value a computation returned, if it did. *)
Definition returned {A} (o : Outcome A) : option A :=
  match o with
  | Returned a _ => Some a
  | _ => None
  end.

(** [r] is the answer to [call]: it carries the name of the call and is
    what [dispatch] returned for it at some moment. *)
Definition answerTo (W : World) (call : FunctionCall)
    (r : Chat.ToolResponse) : Prop :=
  Chat.tr_name r = name call
  /\ exists p, returned (Chat.dispatch W call p) = Some r.

(** The name a function-response part carries. *)
Definition partName (part : Part) : option string :=
  match part with
  | FunctionResponsePart fname _ => Some fname
  | _ => None
  end.

(** A result object is failure-shaped when it has an [error] field
    holding a non-empty string. *)
Definition failureShaped (result : value) : Prop :=
  exists fields err,
    result = VObj fields /\ lookup "error" fields = VStr err /\ err <> "".

(** The network is unreachable when [fetch] rejects or resolves to a
    status outside 200-299. *)
Definition unreachable (o : FetchOutcome) : Prop :=
  match o with
  | FetchRejects _ => True
  | FetchResolves r => status r < 200 \/ 299 < status r
  end.

(** A sequence of histories, each an extension of the one before,
    starting from extensions of [h]. *)
Fixpoint extending (h : list Content) (sent : list (list Content)) : Prop :=
  match sent with
  | [] => True
  | h1 :: rest => (exists added, h1 = h ++ added)%list /\ extending h1 rest
  end.

(** Append-only: whatever was in the history at an earlier moment is
    still there, at the same places, at every later moment. *)
Definition appendOnly (sent : list (list Content)) : Prop :=
  forall i j h h',
    (i <= j)%nat -> nth_error sent i = Some h -> nth_error sent j = Some h' ->
    (exists added, h' = h ++ added)%list /\ (List.length h <= List.length h')%nat.

(** The requests that follow the request [h] in a run.  There is a next
    one only if the model answered [h] with tool-call requests; it is [h]
    with two more turns, the turn of the model and the tool turn that
    answers its calls one by one; and so on from there. *)
Inductive continues (W : World) : list Content -> list (list Content) -> Prop :=
| continues_end (h : list Content) : continues W h []
| continues_pass (h : list Content) (n : nat) (r : Response)
    (calls : list FunctionCall) (toolResponses : list Chat.ToolResponse)
    (rest : list (list Content)) :
    generateContent W n h = inr r ->
    functionCalls r = Some calls ->
    calls <> [] ->
    Forall2 (answerTo W) calls toolResponses ->
    continues W (h ++ [candidate0 r; Chat.toolTurn toolResponses])%list rest ->
    continues W h
      ((h ++ [candidate0 r; Chat.toolTurn toolResponses])%list :: rest).

(** A response without tool-call requests: [functionCalls] is
    [undefined] or empty. *)
Definition textOnly (r : Response) : Prop :=
  functionCalls r = None \/ functionCalls r = Some [].

(** [passes W n (history, r, p) s]: starting with the history
    [history], the response [r] and the page [p], the body of the loop is
    run [n] times, each time for a response that carries requests, and
    that leads to the history, response and page [s]. *)
Inductive passes (W : World)
  : nat -> list Content * Response * Page
    -> list Content * Response * Page -> Prop :=
| passes_none (s : list Content * Response * Page) : passes W 0 s s
| passes_more (n : nat) (history : list Content) (r : Response)
    (calls : list FunctionCall) (p : Page)
    (h : list Content) (r' : Response) (p' : Page)
    (s : list Content * Response * Page) :
    functionCalls r = Some calls ->
    calls <> [] ->
    Chat.iteration W history r p = Returned (h, r') p' ->
    passes W n (h, r', p') s ->
    passes W (S n) (history, r, p) s.

(** The page once the form is submitted: the loading state is on and
    the prompt is shown. *)
Definition submitted (prompt : string) (p : Page) : Page :=
  mkPage (messages p ++ [mkMessageEl user (TextContent prompt)]) true
    (requests p) (ticks p).

(** The page once the model was sent [history]. *)
Definition asked (history : list Content) (p : Page) : Page :=
  mkPage (messages p) (loading p) (requests p ++ [history]) (S (ticks p)).

(** The page [q] seen as the continuation of the page [p]: the messages
    and requests of [p] come first. *)
Definition graft (p q : Page) : Page :=
  mkPage (messages p ++ messages q) (loading q) (requests p ++ requests q)
    (ticks q).

Definition onPage {A} (f : Page -> Page) (o : Outcome A) : Outcome A :=
  match o with
  | Returned a p => Returned a (f p)
  | Thrown e p => Thrown e (f p)
  | Running p => Running (f p)
  end.

(** A computation is oblivious when what is already on the page has no
    influence on it. *)
Definition Oblivious {A} (c : M A) : Prop :=
  forall p q, c (graft p q) = onPage (graft p) (c q).
(* ================================================================== *)
(** ** Vocabulary of the further statements *)
(* ================================================================== *)

(** [undefined] and [null], the values without properties. *)
Definition nullish (v : value) : bool :=
  match v with
  | VUndefined | VNull => true
  | _ => false
  end.

(** [v.key] for a value that has properties. *)
Definition field (v : value) (key : string) : value :=
  match v with
  | VObj fields => lookup key fields
  | _ => VUndefined
  end.

(** The record [search_github_repo] keeps of a repository. *)
Definition summaryOf (repo : value) : value :=
  VObj [ ("name", field repo "full_name"); ("url", field repo "html_url");
         ("description", field repo "description");
         ("stars", field repo "stargazers_count") ].

(** The result of a search that went through, [totalText] being the
    printed [total_count]. *)
Definition searchSuccess (total_count : value) (totalText : string)
    (repos : list value) : value :=
  VObj [ ("status", VStr "success");
         ("results_count", total_count);
         ("top_results", VArr (map summaryOf repos));
         ("message",
          VStr ("Found " ++ totalText
                ++ " repositories. Returning top 5 sorted by stars.")) ].

(** An answer of the search API the tool can use: a success status and a
    JSON object whose [items] is an array without [null] entries and
    whose [total_count] can be printed. *)
Definition usable (response : FetchResponse) (total_count : value)
    (totalText : string) (repos : list value) : Prop :=
  200 <= status response <= 299
  /\ exists fields,
      json response = JsonValue (VObj fields)
      /\ lookup "items" fields = VArr repos
      /\ lookup "total_count" fields = total_count
      /\ toString total_count = Some totalText
      /\ forallb (fun repo => negb (nullish repo)) repos = true.

(** A repository whose star count is missing. *)
Definition starless (repo : value) : bool :=
  nullish (field repo "stargazers_count").

Definition printable (v : value) : bool :=
  match toString v with
  | Some _ => true
  | None => false
  end.

(** A repository the list can show: its address and name can be
    printed, its star count put in the words of the locale, and its
    description, unless falsy, printed. *)
Definition drawable (repo : value) : bool :=
  printable (field repo "html_url")
  && printable (field repo "full_name")
  && localizable (field repo "stargazers_count")
  && (negb (truthy (field repo "description"))
      || printable (field repo "description")).

(** The characters that may occur in an encoded URI component: the
    unreserved ones, the percent sign and the upper-case hex digits. *)
Definition percentOrHex (c : ascii) : bool :=
  let n := nat_of_ascii c in
  ((n =? 37) || (48 <=? n) && (n <=? 57) || (65 <=? n) && (n <=? 70))%nat.

Definition urlSafe (c : ascii) : bool :=
  Str.uriUnreserved c || percentOrHex c.

Fixpoint allChars (f : ascii -> bool) (s : string) : bool :=
  match s with
  | EmptyString => true
  | String c rest => f c && allChars f rest
  end.

(** A computation respects a relation between pages when the page it
    leaves, however it ends, is related to the page it found. *)
Definition Respects (R : Page -> Page -> Prop) {A} (c : M A) : Prop :=
  forall p, R p (pageOf (c p)).

Definition sameLoading (p q : Page) : Prop := loading q = loading p.

Definition sameMessages (p q : Page) : Prop := messages q = messages p.

(** What a message element is about: its class and the function it
    names. *)
Definition header (el : MessageEl) : MessageType * option string :=
  (class el,
   match body el with
   | TextContent _ => None
   | ToolCallBox f _ | RepoListBox f _ _ | JsonDumpBox f _ => Some f
   end).

(** The result a tool-result box shows. *)
Definition shows (box : MessageBody) (functionName : string) (result : value)
  : Prop :=
  box = JsonDumpBox functionName result
  \/ (functionName = "search_github_repo"
      /\ field result "status" = VStr "success"
      /\ exists msgText items,
          toString (field result "message") = Some msgText
          /\ box = RepoListBox functionName msgText items).


(** A round of the loop: a response of the model and the entries pushed
    for its calls; and the two turns it adds to the history. *)
Definition roundTurns (round : Response * list Chat.ToolResponse)
  : list Content :=
  [candidate0 (fst round); Chat.toolTurn (snd round)].

(** A history made of the user turn and of completed rounds: a model
    turn, then the tool turn that answers it. *)
Definition rounds (prompt : string)
    (done : list (Response * list Chat.ToolResponse)) : list Content :=
  Chat.userMessage prompt :: flat_map roundTurns done.



(** The two boxes of a tool call, as against the texts of the user and
    of the model. *)
Definition toolBox (el : MessageEl) : Prop :=
  class el = tool_call \/ class el = tool_result.

(** The notice shown when the [try] block of [handleFormSubmit] fails. *)
Definition errorNotice : MessageEl :=
  mkMessageEl model (TextContent "An error occurred. Please check the console.").


(* ================================================================== *)
(** ** The mock tools *)
(* ================================================================== *)

Module ToolFacts.

Import Tools.

(** *** [controlFan] *)

(** C8. [controlFan({speed: s, mode: m})], reached through the
    dispatcher, returns the object [{status: "success", message: "Fan set
    to <s>% speed in <m> mode."}], with [s] and [m] printed as a template
    literal prints them: a Number as JavaScript writes it, integer or
    not, a string as it is.  For speed 75 and mode [high] the message is
    exactly "Fan set to 75% speed in high mode.".  (A speed or a mode
    that cannot be printed makes the call throw.) *)
Theorem controlFan_reports_speed_and_mode (W : World) (p : Page) :
  (forall (s m : value) (speedText modeText : string),
      toString s = Some speedText ->
      toString m = Some modeText ->
      callTool W "controlFan" (VObj [("speed", s); ("mode", m)]) p
      = Returned
          (VObj [ ("status", VStr "success");
                  ("message",
                   VStr ("Fan set to " ++ speedText ++ "% speed in "
                         ++ modeText ++ " mode.")) ])
          p)
  /\ (forall speed mode : string,
         callTool W "controlFan"
           (VObj [("speed", VNum speed); ("mode", VStr mode)]) p
         = Returned
             (VObj [ ("status", VStr "success");
                     ("message",
                      VStr ("Fan set to " ++ speed ++ "% speed in "
                            ++ mode ++ " mode.")) ])
             p)
  /\ callTool W "controlFan"
       (VObj [("speed", VNum "75"); ("mode", VStr "high")]) p
     = Returned
         (VObj [ ("status", VStr "success");
                 ("message", VStr "Fan set to 75% speed in high mode.") ])
         p
  /\ (forall s m : value,
         toString s = None \/ toString m = None ->
         exists e,
           callTool W "controlFan" (VObj [("speed", s); ("mode", m)]) p
           = Thrown e p).
Proof.
  assert (H : forall s m,
             callTool W "controlFan" (VObj [("speed", s); ("mode", m)]) p
             = match toString s, toString m with
               | Some speedText, Some modeText =>
                   Returned
                     (VObj [ ("status", VStr "success");
                             ("message",
                              VStr ("Fan set to " ++ speedText
                                    ++ "% speed in " ++ modeText ++ " mode.")) ])
                     p
               | None, _ =>
                   Thrown (mkExn (typeErrorMessage W "${speed}" s)) p
               | Some _, None =>
                   Thrown (mkExn (typeErrorMessage W "${mode}" m)) p
               end).
  { intros s m.
    change (callTool W "controlFan" (VObj [("speed", s); ("mode", m)]) p)
      with (controlFan W (VObj [("speed", s); ("mode", m)]) p).
    unfold controlFan, bind, lift, getProp, print, typeError, ret, throw.
    cbn [lookup String.eqb Ascii.eqb Bool.eqb].
    destruct (toString s); [|reflexivity]. now destruct (toString m). }
  split; [|split; [|split]].
  - intros s m speedText modeText Hs Hm. now rewrite H, Hs, Hm.
  - intros speed mode. now rewrite H.
  - now rewrite H.
  - intros s m Hsm. rewrite H.
    destruct (toString s); [|now eexists].
    destruct (toString m); [|now eexists].
    now destruct Hsm.
Qed.

(** *** [getWeather] *)

Lemma round53_near (m : Z) :
  0 <= m < 40 * 2 ^ 53 -> 0 <= Float.round53 m <= m + 32.
Proof.
  intros [H0 H1]. unfold Float.round53.
  destruct (Z.leb_spec (Z.log2 m - 52) 0) as [Hd|Hd]; [lia|].
  assert (Hm : 0 < m).
  { destruct (Z.eq_dec m 0) as [->|]; [simpl in Hd; lia | lia]. }
  assert (Hl : Z.log2 m < 59).
  { apply Z.log2_lt_pow2; [lia|]. change (2 ^ 59) with (64 * 2 ^ 53). lia. }
  set (d := Z.log2 m - 52) in *.
  assert (Hc : d = 1 \/ d = 2 \/ d = 3 \/ d = 4 \/ d = 5 \/ d = 6) by lia.
  destruct Hc as [-> | [-> | [-> | [-> | [-> | ->]]]]];
    [ change (2 ^ (1 - 1)) with 1; change (2 ^ 1) with 2
    | change (2 ^ (2 - 1)) with 2; change (2 ^ 2) with 4
    | change (2 ^ (3 - 1)) with 4; change (2 ^ 3) with 8
    | change (2 ^ (4 - 1)) with 8; change (2 ^ 4) with 16
    | change (2 ^ (5 - 1)) with 16; change (2 ^ 5) with 32
    | change (2 ^ (6 - 1)) with 32; change (2 ^ 6) with 64 ];
    match goal with
    | |- context [if ?c then _ else _] => destruct c eqn:E
    end;
    Z.to_euclidean_division_equations; lia.
Qed.

(** The floor of forty times a double of the unit interval is one of
    0..39, rounding of the product included. *)
Lemma floorTimes40_range (d : Float.unitDouble) :
  Float.inUnitInterval d -> 0 <= Float.floorTimes40 d <= 39.
Proof.
  intros [[Hm0 Hm1] [Hs0 Hs1]]. unfold Float.floorTimes40.
  assert (Hr := round53_near (Float.mant d * 40) ltac:(lia)).
  assert (Hp : 2 ^ 53 <= 2 ^ Float.scale d) by (apply Z.pow_le_mono_r; lia).
  assert (H53 : 0 < 2 ^ 53) by (apply Z.pow_pos_nonneg; lia).
  split.
  - apply Z.div_pos; lia.
  - cut (Float.round53 (Float.mant d * 40) / 2 ^ Float.scale d < 40); [lia|].
    apply Z.div_lt_upper_bound; nia.
Qed.

(** C7. [getWeather({location: L})], with no [unit], returns through the
    dispatcher an object whose [temperature] is "<n>° F" for an integer
    [n] between 10 and 49, whatever the random draw, and whose [location]
    is [L] itself. *)
Theorem getWeather_default_unit (W : World) (L : value) (p : Page) :
  Float.inUnitInterval (Math_random W (ticks p)) ->
  exists (n : Z) (p' : Page),
    10 <= n <= 49
    /\ callTool W "getWeather" (VObj [("location", L)]) p
       = Returned
           (VObj [ ("temperature", VStr (numberToString n ++ "° F"));
                   ("location", L) ])
           p'.
Proof.
  intros Hd. apply floorTimes40_range in Hd.
  exists (Float.floorTimes40 (Math_random W (ticks p)) + 10).
  eexists. split; [lia|].
  cbv [callTool getWeather bind lift getProp ret tick orDefault lookup
       isString String.eqb Ascii.eqb Bool.eqb].
  reflexivity.
Qed.

Lemma getWeather_default_unit_witness :
  Float.inUnitInterval (Math_random Sample.offline (ticks Sample.emptyPage))
  /\ exists (n : Z) (p' : Page),
      10 <= n <= 49
      /\ callTool Sample.offline "getWeather"
           (VObj [("location", VStr "Tokyo, JP")]) Sample.emptyPage
         = Returned
             (VObj [ ("temperature", VStr (numberToString n ++ "° F"));
                     ("location", VStr "Tokyo, JP") ])
             p'.
Proof.
  assert (H : Float.inUnitInterval
                (Math_random Sample.offline (ticks Sample.emptyPage))).
  { unfold Float.inUnitInterval. simpl. lia. }
  split; [exact H|].
  exact (getWeather_default_unit Sample.offline (VStr "Tokyo, JP")
           Sample.emptyPage H).
Defined.

(** In the sample world the draw is one half: 30 degrees. *)
Example getWeather_Tokyo :
  returned (callTool Sample.offline "getWeather"
              (VObj [("location", VStr "Tokyo, JP")]) Sample.emptyPage)
  = Some (VObj [ ("temperature", VStr "30° F");
                 ("location", VStr "Tokyo, JP") ]).
Proof. reflexivity. Qed.

(** Every temperature from 10 to 49 is the outcome of some draw. *)
Lemma getWeather_every_temperature (n : Z) :
  10 <= n <= 49 ->
  Float.inUnitInterval (drawFor n)
  /\ Float.floorTimes40 (drawFor n) + 10 = n.
Proof.
  intros Hn.
  assert (Hc : exists k, (k < 40)%nat /\ n = 10 + Z.of_nat k).
  { exists (Z.to_nat (n - 10)). lia. }
  destruct Hc as [k [Hk ->]].
  do 40 (destruct k as [|k];
         [ unfold Float.inUnitInterval; vm_compute; repeat split;
           congruence | ]).
  lia.
Qed.

(** *** [perform_code_critique] *)

Lemma append_assoc (a b c : string) : (a ++ b) ++ c = a ++ (b ++ c).
Proof. induction a as [|x a IH]; simpl; [reflexivity | now rewrite IH]. Qed.

Lemma append_nil_r (a : string) : a ++ "" = a.
Proof. induction a as [|x a IH]; simpl; [reflexivity | now rewrite IH]. Qed.









(** The word is found in capitals, and in a mix of cases. *)
Example error_in_capitals :
  ContainsIgnoringCase "TypeERROR: boom" "error"
  /\ Str.includes (Str.toLowerCase "Build ErRoR") "error" = true.
Proof.
  split; [|reflexivity]. now exists "Type", "ERROR", ": boom".
Qed.

Lemma list_ascii_of_append (a b : string) :
  list_ascii_of_string (a ++ b)
  = (list_ascii_of_string a ++ list_ascii_of_string b)%list.
Proof. induction a as [|x a IH]; simpl; [reflexivity | now rewrite IH]. Qed.



End ToolFacts.

(* ================================================================== *)
(** ** The dispatch of one call *)
(* ================================================================== *)

Module DispatchFacts.

Import Tools Chat.

(** *** How computations settle *)

Lemma advance_nothing (p : Page) : advance p [] 0 = p.
Proof.
  destruct p. unfold advance. simpl. now rewrite app_nil_r, Nat.add_0_r.
Qed.

Lemma advance_twice (p : Page) shown n shown' n' :
  advance (advance p shown n) shown' n'
  = advance p (shown ++ shown') (n + n').
Proof.
  unfold advance. simpl. now rewrite app_assoc, Nat.add_assoc.
Qed.

Lemma Answers_ret {A} (a : A) : Answers (ret a).
Proof. intros p. exists a, [], 0%nat. now rewrite advance_nothing. Qed.

Lemma Answers_tick : Answers tick.
Proof.
  intros p. exists (ticks p), [], 1%nat. unfold tick, advance.
  now rewrite app_nil_r, Nat.add_1_r.
Qed.

Lemma Answers_appendChild (el : MessageEl) : Answers (appendChild el).
Proof.
  intros p. exists tt, [el], 0%nat. unfold appendChild, advance.
  now rewrite Nat.add_0_r.
Qed.

Lemma Answers_bind {A B} (c : M A) (k : A -> M B) :
  Answers c -> (forall a, Answers (k a)) -> Answers (bind c k).
Proof.
  intros Hc Hk p. destruct (Hc p) as [a [s1 [n1 E1]]].
  destruct (Hk a (advance p s1 n1)) as [b [s2 [n2 E2]]].
  exists b, (s1 ++ s2)%list, (n1 + n2)%nat.
  unfold bind. now rewrite E1, E2, advance_twice.
Qed.

Lemma Answers_Settles {A} (c : M A) : Answers c -> Settles c.
Proof.
  intros Hc p. destruct (Hc p) as [a [s [n E]]]. exists s, n. left. now exists a.
Qed.

Lemma Settles_ret {A} (a : A) : Settles (ret a).
Proof. apply Answers_Settles, Answers_ret. Qed.

Lemma Settles_tick : Settles tick.
Proof. apply Answers_Settles, Answers_tick. Qed.

Lemma Settles_appendChild (el : MessageEl) : Settles (appendChild el).
Proof. apply Answers_Settles, Answers_appendChild. Qed.

Lemma Settles_throw {A} (e : Exn) : Settles (@throw A e).
Proof.
  intros p. exists [], 0%nat. right. exists e. now rewrite advance_nothing.
Qed.

Lemma Settles_lift {A} (r : Exn + A) : Settles (lift r).
Proof. destruct r; [apply Settles_throw | apply Settles_ret]. Qed.

Lemma Settles_bind {A B} (c : M A) (k : A -> M B) :
  Settles c -> (forall a, Settles (k a)) -> Settles (bind c k).
Proof.
  intros Hc Hk p. unfold bind.
  destruct (Hc p) as [s1 [n1 [[a E1] | [e E1]]]]; rewrite E1.
  - destruct (Hk a (advance p s1 n1)) as [s2 [n2 H2]].
    exists (s1 ++ s2)%list, (n1 + n2)%nat. rewrite <- advance_twice.
    destruct H2 as [[b E2] | [e E2]]; rewrite E2; eauto.
  - exists s1, n1. eauto.
Qed.

Lemma Settles_tryCatch {A} (c : M A) (handler : Exn -> M A) :
  Settles c -> (forall e, Settles (handler e)) -> Settles (tryCatch c handler).
Proof.
  intros Hc Hh p. unfold tryCatch.
  destruct (Hc p) as [s1 [n1 [[a E1] | [e E1]]]]; rewrite E1.
  - exists s1, n1. eauto.
  - destruct (Hh e (advance p s1 n1)) as [s2 [n2 H2]].
    exists (s1 ++ s2)%list, (n1 + n2)%nat. rewrite <- advance_twice.
    destruct H2 as [[b E2] | [e' E2]]; rewrite E2; eauto.
Qed.

Lemma Answers_tryCatch {A} (c : M A) (handler : Exn -> M A) :
  Settles c -> (forall e, Answers (handler e)) -> Answers (tryCatch c handler).
Proof.
  intros Hc Hh p. unfold tryCatch.
  destruct (Hc p) as [s1 [n1 [[a E1] | [e E1]]]]; rewrite E1.
  - now exists a, s1, n1.
  - destruct (Hh e (advance p s1 n1)) as [b [s2 [n2 E2]]].
    exists b, (s1 ++ s2)%list, (n1 + n2)%nat.
    now rewrite E2, advance_twice.
Qed.

(** Settling follows the shape of the code. *)
Ltac settle :=
  repeat first
    [ apply Settles_ret | apply Settles_throw | apply Settles_lift
    | apply Settles_tick | apply Settles_appendChild
    | apply Settles_bind; [ | intros ? ]
    | apply Settles_tryCatch; [ | intros ? ]
    | match goal with
      | |- Settles (match ?x with _ => _ end) => destruct x
      end ].

(** Every tool settles: a call never hangs, and leaves the requests made
    to the model alone. *)
Lemma callTool_Settles (W : World) (functionName : string) (args : value) :
  Settles (callTool W functionName args).
Proof.
  unfold callTool, getWeather, getCurrentTime, controlFan, search_github_repo,
    execute_code, retrieve_knowledge, perform_code_critique.
  settle.
Qed.

Lemma addMessage_Settles (W : World) payload type :
  Settles (addMessage W payload type).
Proof. unfold addMessage. settle. Qed.

(** The announcement of a call is always shown. *)
Lemma addMessage_call_Answers (W : World) functionName args :
  Answers (addMessage W (PCall functionName args) tool_call).
Proof. apply Answers_appendChild. Qed.

(** An [errorResult] has no [status], so it is shown as a JSON dump. *)
Lemma resultHtml_errorResult (W : World) functionName e :
  resultHtml W functionName (errorResult e)
  = inr (JsonDumpBox functionName (errorResult e)).
Proof.
  unfold resultHtml. now destruct (String.eqb functionName "search_github_repo").
Qed.

Lemma addMessage_errorResult_Answers (W : World) functionName e :
  Answers (addMessage W (PResult functionName (errorResult e)) tool_result).
Proof.
  unfold addMessage. rewrite resultHtml_errorResult.
  apply Answers_bind; [apply Answers_ret | intros; apply Answers_appendChild].
Qed.

(** The [try]/[catch] around the call leaves nothing uncaught. *)
Lemma dispatch_Answers (W : World) (call : FunctionCall) :
  Answers (dispatch W call).
Proof.
  unfold dispatch.
  apply Answers_bind; [apply addMessage_call_Answers | intros _].
  apply Answers_tryCatch.
  - apply Settles_bind; [apply callTool_Settles | intros r].
    apply Settles_bind; [apply addMessage_Settles | intros _; apply Settles_ret].
  - intros e.
    apply Answers_bind; [apply addMessage_errorResult_Answers | intros _].
    apply Answers_ret.
Qed.

(** The entry pushed for a call carries the name of the call. *)
Lemma dispatch_name (W : World) (call : FunctionCall) p r :
  returned (dispatch W call p) = Some r -> tr_name r = name call.
Proof.
  unfold dispatch, bind, tryCatch.
  destruct (addMessage W (PCall (name call) (args call)) tool_call p)
    as [[] p1 | e p1 | p1]; try discriminate.
  destruct (callTool W (name call) (args call) p1) as [v p2 | e p2 | p2];
    try discriminate.
  - destruct (addMessage W (PResult (name call) v) tool_result p2)
      as [[] p3 | e p3 | p3]; try discriminate.
    + simpl. now intros [= <-].
    + destruct (addMessage W (PResult (name call) (errorResult e)) tool_result p3)
        as [[] p4 | e' p4 | p4]; try discriminate.
      simpl. now intros [= <-].
  - destruct (addMessage W (PResult (name call) (errorResult e)) tool_result p2)
      as [[] p3 | e' p3 | p3]; try discriminate.
    simpl. now intros [= <-].
Qed.

(** What was thrown by the tool is what the entry reports. *)
Lemma dispatch_thrown (W : World) (call : FunctionCall) (e : Exn) p :
  (forall q, thrown (callTool W (name call) (args call) q) = Some e) ->
  returned (dispatch W call p)
  = Some (mkToolResponse (name call) (errorResult e)).
Proof.
  intros H. unfold dispatch, bind, tryCatch.
  destruct (addMessage_call_Answers W (name call) (args call) p)
    as [[] [s1 [n1 E1]]].
  rewrite E1. specialize (H (advance p s1 n1)).
  destruct (callTool W (name call) (args call) (advance p s1 n1))
    as [v p2 | e' p2 | p2]; try discriminate.
  injection H as ->.
  destruct (addMessage_errorResult_Answers W (name call) e p2)
    as [[] [s3 [n3 E3]]].
  now rewrite E3.
Qed.

(** A [catch] that returns leaves nothing thrown. *)
Lemma tryCatch_ret_thrown {A} (c : M A) (f : Exn -> A) p :
  thrown (tryCatch c (fun e => ret (f e)) p) = None.
Proof. unfold tryCatch, ret. now destruct (c p). Qed.

(** Whether a tool throws, and what, is decided by its arguments and by
    the engine alone: not by the page, the moment, the network, the
    model or the random source. *)
Lemma callTool_thrown_same (W1 W2 : World) (functionName : string)
    (given : value) p q :
  sameEngine W1 W2 ->
  thrown (callTool W1 functionName given p)
  = thrown (callTool W2 functionName given q).
Proof.
  intros [HT HU]. unfold callTool.
  repeat match goal with
         | |- context [String.eqb functionName ?s] =>
             destruct (String.eqb functionName s)
         end.
  - unfold getWeather, bind, lift, getProp, typeError, throw, ret, tick.
    destruct given; cbn [thrown]; now rewrite ?HT.
  - unfold getCurrentTime, bind, lift, getProp, typeError, throw, ret, tick.
    destruct given; cbn [thrown]; now rewrite ?HT.
  - unfold controlFan, bind, lift, getProp, print, typeError, throw, ret.
    destruct given; cbn [thrown]; rewrite ?HT; try reflexivity;
      repeat match goal with
             | |- context [toString ?v] => destruct (toString v)
             end; cbn [thrown]; now rewrite ?HT.
  - unfold search_github_repo, bind, lift, getProp, typeError.
    assert (HS : forall term, searchUrl W1 term = searchUrl W2 term).
    { intros term. unfold searchUrl, print, typeError, bindE.
      destruct (toString term); [|now rewrite HT].
      destruct (Str.encodeURIComponent _); [reflexivity | now rewrite HU]. }
    destruct given; unfold throw, ret; cbn [thrown]; rewrite ?HT;
      try reflexivity; rewrite HS;
      (destruct (searchUrl W2 _) as [e | url]; [reflexivity|]);
      now rewrite !tryCatch_ret_thrown.
  - unfold execute_code, bind, lift, getProp, print, typeError, throw, ret.
    destruct given; cbn [thrown]; rewrite ?HT; try reflexivity;
      repeat match goal with
             | |- context [toString ?v] => destruct (toString v)
             end; cbn [thrown]; now rewrite ?HT.
  - unfold retrieve_knowledge, bind, lift, getProp, print, typeError, throw, ret.
    destruct given; cbn [thrown]; rewrite ?HT; try reflexivity;
      repeat match goal with
             | |- context [toString ?v] => destruct (toString v)
             end; cbn [thrown]; now rewrite ?HT.
  - unfold perform_code_critique, bind, lift, getProp, print, typeError,
      throw, ret.
    destruct given; cbn [thrown]; rewrite ?HT; try reflexivity;
      repeat match goal with
             | |- context [toString ?v] => destruct (toString v) eqn:?
             end; cbn [thrown]; rewrite ?HT; try reflexivity;
      repeat match goal with
             | |- context [match ?v with VStr _ => _ | _ => _ end] =>
                 destruct v
             | |- context [if ?b then _ else _] => destruct b
             end; cbn [thrown]; now rewrite ?HT.
  - reflexivity.
Qed.

Lemma sameEngine_refl (W : World) : sameEngine W W.
Proof. now split. Qed.

(** *** The registry and the dispatcher *)

(** Every declaration has its [case] in the dispatcher and every [case]
    its declaration. *)
Lemma executors_declared (W : World) :
  map fst (executors W) = map decl_name functionDeclarations.
Proof. reflexivity. Qed.

(** [callTool] is the lookup in that table, with the [default] branch
    for the names it lacks. *)
Lemma callTool_executor (W : World) (functionName : string) (args : value) :
  callTool W functionName args
  = match executorOf (executors W) functionName with
    | Some f => f args
    | None => throw (mkExn ("Unknown function: " ++ functionName))
    end.
Proof.
  unfold callTool, executors, executorOf.
  repeat match goal with
         | |- context [String.eqb functionName ?s] =>
             destruct (String.eqb functionName s); [reflexivity|]
         end.
  reflexivity.
Qed.

(** *** An unregistered name *)

(** The [default] branch of the [switch] is where the unregistered names
    go. *)
Lemma callTool_unknown (W : World) (functionName : string) (args : value) p :
  ~ registered functionName ->
  callTool W functionName args p
  = Thrown (mkExn ("Unknown function: " ++ functionName)) p.
Proof.
  intros H. unfold registered in H. simpl in H. unfold callTool.
  repeat match goal with
         | |- context [String.eqb functionName ?s] =>
             destruct (String.eqb_spec functionName s) as [E | _];
             [ exfalso; apply H; rewrite E; tauto | ]
         end.
  reflexivity.
Qed.

(** What [dispatch] does with such a call, in full. *)
Lemma dispatch_unknown (W : World) (call : FunctionCall) p :
  ~ registered (name call) ->
  dispatch W call p
  = Returned (mkToolResponse (name call) (unknownFailure (name call)))
      (advance p
         [ mkMessageEl tool_call (ToolCallBox (name call) (args call));
           mkMessageEl tool_result
             (JsonDumpBox (name call) (unknownFailure (name call))) ]
         0).
Proof.
  intros H. unfold dispatch, bind, tryCatch, unknownFailure.
  cbn [addMessage appendChild].
  rewrite (callTool_unknown W _ _ _ H).
  unfold addMessage. rewrite resultHtml_errorResult. unfold bind, lift, ret.
  cbn [appendChild messages loading requests ticks].
  unfold advance. cbn [messages loading requests ticks].
  now rewrite <- app_assoc, Nat.add_0_r.
Qed.

(** *** The batch of one model turn *)

(** The loop reads the requests of a response as they stand. *)
Lemma pendingCalls_some (currentResponse : Response) calls :
  functionCalls currentResponse = Some calls ->
  pendingCalls currentResponse = calls.
Proof. unfold pendingCalls. now intros ->. Qed.


Lemma Forall2_nth_error_left {A B} (R : A -> B -> Prop) l1 l2 i a :
  Forall2 R l1 l2 -> nth_error l1 i = Some a ->
  exists b, nth_error l2 i = Some b /\ R a b.
Proof.
  intros H. revert i. induction H as [|x y l1 l2 Hxy _ IH]; intros i Hi.
  - now destruct i.
  - destruct i as [|i]; simpl in *.
    + injection Hi as <-. now exists y.
    + now apply IH.
Qed.

(** The [for] loop runs to its end and pushes one entry per call, in the
    order of the calls. *)
Lemma forEachCall_spec (W : World) (calls : list FunctionCall) :
  forall toolResponses p, exists pushed shown n,
    forEachCall W calls toolResponses p
    = Returned (toolResponses ++ pushed)%list (advance p shown n)
    /\ Forall2 (answerTo W) calls pushed.
Proof.
  induction calls as [|call rest IH]; intros acc p.
  - exists [], [], 0%nat. simpl. unfold ret.
    now rewrite app_nil_r, advance_nothing.
  - destruct (dispatch_Answers W call p) as [r [s1 [n1 E1]]].
    destruct (IH (acc ++ [r])%list (advance p s1 n1)) as [rs [s2 [n2 [E2 HF]]]].
    exists (r :: rs), (s1 ++ s2)%list, (n1 + n2)%nat. split.
    + simpl. unfold bind. rewrite E1, E2, advance_twice.
      now rewrite <- app_assoc.
    + constructor; [|exact HF]. split.
      * apply (dispatch_name W call p). now rewrite E1.
      * exists p. now rewrite E1.
Qed.

Lemma callModel_spec (W : World) (history : list Content) p :
  callModel W history p
  = let p' := mkPage (messages p) (loading p) (requests p ++ [history])
                (S (ticks p)) in
    match generateContent W (ticks p) history with
    | inr r => Returned r p'
    | inl e => Thrown e p'
    end.
Proof.
  unfold callModel, bind, tick, lift. simpl.
  now destruct (generateContent W (ticks p) history).
Qed.

(** One pass of the loop: the calls are answered, the two turns are
    pushed, and the model is called with the longer history. *)
Lemma iteration_spec (W : World) (history : list Content)
    (currentResponse : Response) p :
  exists toolResponses shown n,
    Forall2 (answerTo W) (pendingCalls currentResponse) toolResponses
    /\ let history' :=
         (history ++ [candidate0 currentResponse; toolTurn toolResponses])%list in
       let p' := mkPage (messages p ++ shown) (loading p)
                   (requests p ++ [history']) (S (ticks p + n)) in
       iteration W history currentResponse p
       = match generateContent W (ticks p + n) history' with
         | inr r => Returned (history', r) p'
         | inl e => Thrown e p'
         end.
Proof.
  destruct (forEachCall_spec W (pendingCalls currentResponse) [] p)
    as [rs [shown [n [E HF]]]].
  exists rs, shown, n. split; [exact HF|].
  unfold iteration, bind. rewrite E, callModel_spec. simpl.
  rewrite <- app_assoc. simpl.
  now destruct (generateContent W (ticks p + n) _).
Qed.

Lemma iteration_requests (W : World) (history : list Content)
    (currentResponse : Response) p :
  exists toolResponses,
    Forall2 (answerTo W) (pendingCalls currentResponse) toolResponses
    /\ requests (pageOf (iteration W history currentResponse p))
       = (requests p
          ++ [history ++ [candidate0 currentResponse; toolTurn toolResponses]])%list
    /\ (returned (iteration W history currentResponse p) = None
        \/ exists r,
             returned (iteration W history currentResponse p)
             = Some ((history ++ [candidate0 currentResponse;
                                  toolTurn toolResponses])%list, r)).
Proof.
  destruct (iteration_spec W history currentResponse p)
    as [rs [shown [n [HF E]]]].
  exists rs. split; [exact HF|]. simpl in E. rewrite E.
  destruct (generateContent W (ticks p + n) _); simpl; eauto.
Qed.

End DispatchFacts.

(* ================================================================== *)
(** ** Failures of tools, as the model sees them *)
(* ================================================================== *)

Module FailureFacts.

Import Tools Chat DispatchFacts.

(** C1. A call whose name is not registered makes the dispatcher throw
    [Unknown function: <name>]; the call site catches it: [dispatch]
    returns, for every page, the entry [{name, response: {error:
    "Function Execution Failed: Unknown function: <name>"}}], a
    failure-shaped result; and a pass of the loop that holds such a call
    at place [i] goes on to call the model, with that entry at place [i]
    of the tool turn it sends. *)
Theorem unknown_tool_is_caught_and_reported (W : World) (call : FunctionCall) :
  ~ registered (name call) ->
  (forall p,
      callTool W (name call) (args call) p
      = Thrown (mkExn ("Unknown function: " ++ name call)) p)
  /\ (forall p, exists p',
         dispatch W call p
         = Returned (mkToolResponse (name call) (unknownFailure (name call))) p')
  /\ unknownFailure (name call)
     = VObj [ ("error",
               VStr ("Function Execution Failed: Unknown function: "
                     ++ name call)) ]
  /\ failureShaped (unknownFailure (name call))
  /\ (forall history currentResponse i p,
         nth_error (pendingCalls currentResponse) i = Some call ->
         exists toolResponses,
           nth_error toolResponses i
           = Some (mkToolResponse (name call) (unknownFailure (name call)))
           /\ nth_error (parts (toolTurn toolResponses)) i
              = Some (FunctionResponsePart (name call)
                        (unknownFailure (name call)))
           /\ requests (pageOf (iteration W history currentResponse p))
              = (requests p
                 ++ [history ++ [candidate0 currentResponse;
                                 toolTurn toolResponses]])%list).
Proof.
  intros H. split; [|split; [|split; [|split]]].
  - intros p. now apply callTool_unknown.
  - intros p. eexists. now apply dispatch_unknown.
  - reflexivity.
  - eexists _, _. split; [reflexivity|]. split; [reflexivity|]. discriminate.
  - intros history currentResponse i p Hi.
    destruct (iteration_requests W history currentResponse p)
      as [rs [HF [Hreq _]]].
    destruct (Forall2_nth_error_left _ _ _ _ _ HF Hi) as [r [Hr [_ [p0 Hp0]]]].
    rewrite (dispatch_unknown W call p0 H) in Hp0. injection Hp0 as <-.
    exists rs. split; [exact Hr|]. split; [|exact Hreq].
    unfold toolTurn, toolParts. simpl. now rewrite nth_error_map, Hr.
Qed.

Lemma unknown_tool_is_caught_and_reported_witness :
  ~ registered (name Sample.launchRocket)
  /\ exists p',
      dispatch Sample.offline Sample.launchRocket Sample.emptyPage
      = Returned
          (mkToolResponse (name Sample.launchRocket)
             (unknownFailure (name Sample.launchRocket)))
          p'.
Proof.
  assert (H : ~ registered (name Sample.launchRocket)).
  { unfold registered. simpl.
    intros [E | [E | [E | [E | [E | [E | [E | []]]]]]]]; discriminate. }
  split; [exact H|].
  exact (proj1 (proj2 (unknown_tool_is_caught_and_reported Sample.offline
                         Sample.launchRocket H))
           Sample.emptyPage).
Defined.

(** C9. A dispatch fails when its tool throws.  The entry returned for
    a failed dispatch is the name of the call with [{error: "Function
    Execution Failed: <message>"}], made from the exception alone: so two
    dispatches of the same call that failed for the same cause, in
    whatever worlds and at whatever moments, return the same entry.  And
    the cause is the same whenever the engine is: what a tool throws for
    given arguments (an unregistered name, missing arguments, a missing
    [execution_logs], a value that cannot be printed) depends neither on
    the page nor on the moment, the network, the model or the random
    source.  For an unregistered name it does not even depend on the
    engine. *)
Theorem failed_dispatch_is_repeatable
    (W1 W2 : World) (p1 p2 : Page) (call : FunctionCall) (e : Exn) :
  thrown (callTool W1 (name call) (args call) p1) = Some e ->
  returned (dispatch W1 call p1)
  = Some (mkToolResponse (name call)
            (VObj [ ("error",
                     VStr ("Function Execution Failed: " ++ message e)) ]))
  /\ (thrown (callTool W2 (name call) (args call) p2) = Some e ->
      returned (dispatch W2 call p2) = returned (dispatch W1 call p1))
  /\ (sameEngine W1 W2 ->
      thrown (callTool W2 (name call) (args call) p2) = Some e)
  /\ (~ registered (name call) ->
      e = mkExn ("Unknown function: " ++ name call)
      /\ thrown (callTool W2 (name call) (args call) p2) = Some e).
Proof.
  intros H.
  assert (D : forall W p,
             thrown (callTool W (name call) (args call) p) = Some e ->
             returned (dispatch W call p)
             = Some (mkToolResponse (name call) (errorResult e))).
  { intros W p Hp. apply dispatch_thrown. intros q.
    now rewrite (callTool_thrown_same W W _ _ q p (sameEngine_refl W)). }
  split; [now apply D|]. split; [|split].
  - intros H2. now rewrite (D W2 p2 H2), (D W1 p1 H).
  - intros HE. now rewrite <- (callTool_thrown_same W1 W2 _ _ p1 p2 HE).
  - intros HU. rewrite (callTool_unknown W1 _ _ _ HU) in H.
    injection H as <-. split; [reflexivity|].
    now rewrite (callTool_unknown W2 _ _ _ HU).
Qed.

Lemma failed_dispatch_is_repeatable_witness :
  thrown (callTool Sample.offline "perform_code_critique"
            (VObj [("code_block", VStr "print(1)")]) Sample.emptyPage)
  = Some (mkExn "Cannot read properties of undefined (execution_logs.toLowerCase)")
  /\ returned (dispatch Sample.agentic
                 (mkCall "perform_code_critique"
                    (VObj [("code_block", VStr "print(1)")]))
                 (mkPage [] true [] 7))
     = returned (dispatch Sample.offline
                   (mkCall "perform_code_critique"
                      (VObj [("code_block", VStr "print(1)")]))
                   Sample.emptyPage).
Proof.
  assert (H : thrown (callTool Sample.offline "perform_code_critique"
                        (VObj [("code_block", VStr "print(1)")])
                        Sample.emptyPage)
              = Some (mkExn "Cannot read properties of undefined (execution_logs.toLowerCase)")).
  { reflexivity. }
  split; [exact H|].
  destruct (failed_dispatch_is_repeatable Sample.offline Sample.agentic
              Sample.emptyPage (mkPage [] true [] 7)
              (mkCall "perform_code_critique"
                 (VObj [("code_block", VStr "print(1)")]))
              _ H)
    as [_ [Hsame [Hengine _]]].
  apply Hsame, Hengine. split; reflexivity.
Defined.

(** The same failures, in two worlds and at two moments. *)
Example null_arguments_fail_alike :
  returned (dispatch Sample.insistent (mkCall "getWeather" VNull)
              (mkPage [] true [] 3))
  = returned (dispatch Sample.offline (mkCall "getWeather" VNull)
                Sample.emptyPage)
  /\ returned (dispatch Sample.offline (mkCall "getWeather" VNull)
                 Sample.emptyPage)
     = Some (mkToolResponse "getWeather"
               (VObj [ ("error",
                        VStr "Function Execution Failed: Cannot read properties of null ({location, unit})") ])).
Proof. split; reflexivity. Qed.



(** *** [search_github_repo] without network *)

(** [response.ok] is a status of 200 to 299. *)
Lemma ok_range (response : FetchResponse) :
  ok response = true <-> 200 <= status response <= 299.
Proof.
  unfold ok. rewrite andb_true_iff, !Z.leb_le. reflexivity.
Qed.

Lemma searchBody_not_ok (W : World) (response : FetchResponse) :
  ok response = false -> exists e, searchBody W response = inl e.
Proof.
  intros H. unfold searchBody. rewrite H. simpl. unfold bindE.
  destruct (awaitJson response) as [e | errorData]; [now exists e|].
  destruct (getProp W "errorData.message" errorData "message") as [e | msg];
    [now exists e|].
  destruct (print W "${errorData.message}" msg) as [e | msgText]; eauto.
Qed.

(** The search of an argument object whose term gave the URL [url]. *)
Lemma search_with_url (W : World) (fields : list (string * value)) url p :
  searchUrl W (lookup "search_term" fields) = inr url ->
  search_github_repo W (VObj fields) p
  = tryCatch
      (n <- tick ;;
       match fetch W n url with
       | FetchRejects e => throw e
       | FetchResolves response => lift (searchBody W response)
       end)
      (fun error => ret (searchFailure error)) p.
Proof.
  intros H. unfold search_github_repo, bind at 1 2, lift, getProp, ret.
  now rewrite H.
Qed.

Lemma search_unreachable (W : World) (fields : list (string * value)) url p :
  searchUrl W (lookup "search_term" fields) = inr url ->
  unreachable (fetch W (ticks p) url) ->
  exists e,
    search_github_repo W (VObj fields) p
    = Returned (searchFailure e) (advance p [] 1).
Proof.
  intros Hurl H. rewrite (search_with_url W fields url p Hurl).
  unfold bind, tryCatch, tick, lift, ret. cbn [ticks].
  assert (Hp : mkPage (messages p) (loading p) (requests p) (S (ticks p))
               = advance p [] 1).
  { unfold advance. now rewrite app_nil_r, Nat.add_1_r. }
  destruct (fetch W (ticks p) url) as [e | response].
  - exists e. unfold throw. now rewrite Hp.
  - assert (Hok : ok response = false).
    { destruct (ok response) eqn:E; [|reflexivity].
      apply ok_range in E. simpl in H. lia. }
    destruct (searchBody_not_ok W response Hok) as [e He].
    exists e. rewrite He. unfold throw. now rewrite Hp.
Qed.

Lemma dispatch_search_unreachable (W : World) (fields : list (string * value))
    url p :
  searchUrl W (lookup "search_term" fields) = inr url ->
  unreachable (fetch W (ticks p) url) ->
  exists e p',
    dispatch W (mkCall "search_github_repo" (VObj fields)) p
    = Returned (mkToolResponse "search_github_repo" (searchFailure e)) p'.
Proof.
  intros Hurl H. unfold dispatch, bind, tryCatch.
  cbn [name args addMessage appendChild].
  change (callTool W "search_github_repo" (VObj fields))
    with (search_github_repo W (VObj fields)).
  set (p1 := mkPage _ _ _ _).
  destruct (search_unreachable W fields url p1 Hurl H) as [e He].
  rewrite He. exists e. eexists. reflexivity.
Qed.

(** C6. A call of [search_github_repo] fetches the URL made of its
    search term.  When the network is unreachable ([fetch] of that URL
    rejects, or answers with a status outside 200-299), the call returns
    an object whose [status] is "failure" and whose [error] is a
    non-empty string; the call site passes it on unchanged, and a pass of
    the loop that holds such a call at place [i] of the requests of the
    model goes on to call the model, with that result at place [i] of the
    tool turn it sends. *)
Theorem search_without_network_reports_failure
    (W : World) (fields : list (string * value)) (url : string) :
  searchUrl W (lookup "search_term" fields) = inr url ->
  (forall n, unreachable (fetch W n url)) ->
  let isFailure (result : value) :=
    exists err,
      err <> ""
      /\ result
         = VObj [ ("status", VStr "failure"); ("error", VStr err);
                  ("message",
                   VStr "Could not fetch repository data from GitHub.") ] in
  (forall p, exists result,
      callTool W "search_github_repo" (VObj fields) p
      = Returned result (advance p [] 1)
      /\ isFailure result)
  /\ (forall p, exists result p',
         dispatch W (mkCall "search_github_repo" (VObj fields)) p
         = Returned (mkToolResponse "search_github_repo" result) p'
         /\ isFailure result)
  /\ (forall history currentResponse calls i p,
         functionCalls currentResponse = Some calls ->
         nth_error calls i
         = Some (mkCall "search_github_repo" (VObj fields)) ->
         exists toolResponses result,
           isFailure result
           /\ nth_error (parts (toolTurn toolResponses)) i
              = Some (FunctionResponsePart "search_github_repo" result)
           /\ requests (pageOf (iteration W history currentResponse p))
              = (requests p
                 ++ [history ++ [candidate0 currentResponse;
                                 toolTurn toolResponses]])%list).
Proof.
  intros Hurl H isFailure.
  assert (HF : forall e, isFailure (searchFailure e)).
  { intros e. exists ("GitHub API request failed: " ++ message e).
    split; [discriminate | reflexivity]. }
  split; [|split].
  - intros p. destruct (search_unreachable W fields url p Hurl (H _)) as [e He].
    exists (searchFailure e). split; [exact He | apply HF].
  - intros p.
    destruct (dispatch_search_unreachable W fields url p Hurl (H _))
      as [e [p' He]].
    exists (searchFailure e), p'. split; [exact He | apply HF].
  - intros history currentResponse calls i p Hcalls Hi.
    destruct (iteration_requests W history currentResponse p)
      as [rs [HF2 [Hreq _]]].
    rewrite (pendingCalls_some _ _ Hcalls) in HF2.
    destruct (Forall2_nth_error_left _ _ _ _ _ HF2 Hi) as [r [Hr [_ [p0 Hp0]]]].
    destruct (dispatch_search_unreachable W fields url p0 Hurl (H _))
      as [e [p' He]].
    rewrite He in Hp0. injection Hp0 as <-.
    exists rs, (searchFailure e). split; [apply HF|]. split; [|exact Hreq].
    unfold toolTurn, toolParts. simpl. now rewrite nth_error_map, Hr.
Qed.

Lemma search_without_network_reports_failure_witness :
  searchUrl Sample.offline
    (lookup "search_term" [("search_term", VStr "rocq prover")])
  = inr "https://api.github.com/search/repositories?q=rocq%20prover%20in%3Aname%2Cdescription%2Creadme&sort=stars&order=desc&per_page=5"
  /\ exists result,
      callTool Sample.offline "search_github_repo"
        (VObj [("search_term", VStr "rocq prover")]) Sample.emptyPage
      = Returned result (advance Sample.emptyPage [] 1)
      /\ exists err,
          err <> ""
          /\ result
             = VObj [ ("status", VStr "failure"); ("error", VStr err);
                      ("message",
                       VStr "Could not fetch repository data from GitHub.") ].
Proof.
  split; [reflexivity|].
  exact (proj1 (search_without_network_reports_failure Sample.offline
                  [("search_term", VStr "rocq prover")] _ eq_refl
                  (fun n => I))
           Sample.emptyPage).
Defined.

(** A status outside 200-299 ends the same way as no answer at all. *)
Example search_rate_limited :
  searchBody Sample.offline
    (mkFetchResponse 403
       (JsonValue (VObj [("message", VStr "API rate limit exceeded")])))
  = inl (mkExn "GitHub API error! status: 403, message: API rate limit exceeded").
Proof. reflexivity. Qed.

End FailureFacts.
(* ================================================================== *)
(** ** The orchestration loop *)
(* ================================================================== *)

Module LoopFacts.

Import Tools Chat DispatchFacts.

(** *** The histories sent to the model *)

Lemma extending_all (sent : list (list Content)) :
  forall h, extending h sent ->
            Forall (fun h' => exists added, h' = (h ++ added)%list) sent.
Proof.
  induction sent as [|h1 rest IH]; intros h H; constructor.
  - exact (proj1 H).
  - destruct H as [[added ->] H]. apply IH in H.
    eapply Forall_impl; [|exact H]. intros h' [added' ->].
    exists (added ++ added')%list. now rewrite app_assoc.
Qed.

Lemma extending_appendOnly (sent : list (list Content)) :
  forall h, extending h sent -> appendOnly (h :: sent).
Proof.
  assert (Hlen : forall (h h' : list Content),
             (exists added, h' = (h ++ added)%list) ->
             (exists added, h' = (h ++ added)%list)
             /\ (List.length h <= List.length h')%nat).
  { intros h h' [added ->]. split; [now exists added|].
    rewrite length_app. lia. }
  induction sent as [|h1 rest IH]; intros h H i j a b Hij Hi Hj.
  - destruct j as [|j]; [|now destruct j].
    assert (i = 0)%nat as -> by lia. simpl in *.
    injection Hi as <-. injection Hj as <-.
    apply Hlen. exists []. now rewrite app_nil_r.
  - destruct i as [|i].
    + simpl in Hi. injection Hi as <-. apply Hlen. destruct j as [|j].
      * simpl in Hj. injection Hj as <-. exists []. now rewrite app_nil_r.
      * simpl in Hj. apply nth_error_In in Hj.
        pose proof (extending_all _ _ H) as HA.
        rewrite Forall_forall in HA. now apply HA.
    + destruct j as [|j]; [lia|]. simpl in Hi, Hj.
      apply (IH h1 (proj2 H) i j); [lia | exact Hi | exact Hj].
Qed.

(** The loop only ever sends extensions of the history it started
    with, each one an extension of the one before. *)
Lemma whileLoop_requests (W : World) (fuel : nat) :
  forall history currentResponse p, exists sent,
    requests (pageOf (whileLoop W fuel history currentResponse p))
    = (requests p ++ sent)%list
    /\ extending history sent.
Proof.
  induction fuel as [|fuel IH]; intros history currentResponse p.
  - exists []. simpl.
    destruct (pendingCalls currentResponse); simpl; now rewrite app_nil_r.
  - cbn [whileLoop].
    destruct (pendingCalls currentResponse) as [|call calls] eqn:E.
    + exists []. simpl. now rewrite app_nil_r.
    + destruct (iteration_spec W history currentResponse p)
        as [rs [shown [n [_ Hit]]]].
      cbv zeta in Hit. unfold bind. rewrite Hit.
      set (history' := (history ++ [candidate0 currentResponse; toolTurn rs])%list).
      destruct (generateContent W (ticks p + n) history') as [e | r].
      * exists [history']. simpl. split; [reflexivity|].
        split; [now eexists | exact I].
      * cbn [fst snd].
        match goal with
        | |- context [whileLoop W fuel history' r ?q] =>
            destruct (IH history' r q) as [sent [Hs Hx]]
        end.
        exists (history' :: sent). rewrite Hs. cbn [requests].
        rewrite <- app_assoc. split; [reflexivity|].
        split; [now eexists | exact Hx].
Qed.

Lemma respond_requests (W : World) fuel history currentResponse p :
  requests (pageOf (respond W fuel history currentResponse p))
  = requests (pageOf (whileLoop W fuel history currentResponse p)).
Proof.
  unfold respond, bind.
  now destruct (whileLoop W fuel history currentResponse p) as [[h r] q | e q | q].
Qed.

Lemma tryBlock_requests (W : World) fuel prompt p :
  exists sent,
    requests (pageOf (tryBlock W fuel prompt p))
    = (requests p ++ [userMessage prompt] :: sent)%list
    /\ extending [userMessage prompt] sent.
Proof.
  unfold tryBlock, bind. rewrite callModel_spec. cbv zeta.
  destruct (generateContent W (ticks p) [userMessage prompt]) as [e | r].
  - exists []. now split.
  - rewrite respond_requests.
    match goal with
    | |- context [whileLoop W fuel ?h r ?q] =>
        destruct (whileLoop_requests W fuel h r q) as [sent [Hs Hx]]
    end.
    exists sent. rewrite Hs. cbn [requests].
    rewrite <- app_assoc. now split.
Qed.

(** [handleFormSubmit] sends what its [try] block sends. *)
Lemma handleFormSubmit_requests (W : World) fuel prompt p :
  prompt <> "" ->
  requests (pageOf (handleFormSubmit W fuel prompt p))
  = requests
      (pageOf (tryBlock W fuel prompt
                 (mkPage (messages p ++ [mkMessageEl user (TextContent prompt)])
                    true (requests p) (ticks p)))).
Proof.
  intros H. unfold handleFormSubmit.
  destruct (String.eqb_spec prompt "") as [E | _]; [contradiction|].
  unfold bind at 1 2. cbn [addMessage appendChild setLoading messages loading
                             requests ticks].
  unfold tryFinally, tryCatch, bind.
  match goal with
  | |- context [tryBlock W fuel prompt ?q] =>
      destruct (tryBlock W fuel prompt q) as [h q' | e q' | q']
  end; reflexivity.
Qed.

(** *** The requests of a run, one after the other *)

Lemma pendingCalls_cons (currentResponse : Response) call calls :
  pendingCalls currentResponse = call :: calls ->
  functionCalls currentResponse = Some (call :: calls).
Proof.
  unfold pendingCalls. destruct (functionCalls currentResponse); [|discriminate].
  now intros ->.
Qed.

Lemma pendingCalls_textOnly (currentResponse : Response) :
  textOnly currentResponse <-> pendingCalls currentResponse = [].
Proof.
  unfold textOnly, pendingCalls.
  destruct (functionCalls currentResponse) as [calls|].
  - split; [intros [H | H]; [discriminate | now injection H] | intros ->; now right].
  - split; [reflexivity | now left].
Qed.

(** Each request of the loop is the one before with two more turns: the
    response of the model to it, and the answers to the calls of that
    response. *)
Lemma whileLoop_continues (W : World) (fuel : nat) :
  forall history currentResponse p n0,
    generateContent W n0 history = inr currentResponse ->
    exists sent,
      requests (pageOf (whileLoop W fuel history currentResponse p))
      = (requests p ++ sent)%list
      /\ continues W history sent.
Proof.
  induction fuel as [|fuel IH]; intros history currentResponse p n0 Hn0.
  - exists []. simpl.
    destruct (pendingCalls currentResponse); simpl; rewrite app_nil_r;
      (split; [reflexivity | constructor]).
  - cbn [whileLoop].
    destruct (pendingCalls currentResponse) as [|call calls] eqn:E.
    + exists []. simpl. rewrite app_nil_r. split; [reflexivity | constructor].
    + destruct (iteration_spec W history currentResponse p)
        as [rs [shown [n [HF Hit]]]].
      cbv zeta in Hit. unfold bind. rewrite Hit. rewrite E in HF.
      set (history' := (history ++ [candidate0 currentResponse; toolTurn rs])%list).
      assert (Hpass : forall rest,
                 continues W history' rest ->
                 continues W history (history' :: rest)).
      { intros rest Hrest.
        apply (continues_pass W history n0 currentResponse (call :: calls) rs);
          [exact Hn0 | now apply pendingCalls_cons | discriminate
          | exact HF | exact Hrest]. }
      destruct (generateContent W (ticks p + n) history') as [e | r] eqn:Hg.
      * exists [history']. simpl. split; [reflexivity|].
        apply Hpass. constructor.
      * cbn [fst snd].
        match goal with
        | |- context [whileLoop W fuel history' r ?q] =>
            destruct (IH history' r q _ Hg) as [sent [Hs Hx]]
        end.
        exists (history' :: sent). rewrite Hs. cbn [requests].
        rewrite <- app_assoc. split; [reflexivity|].
        now apply Hpass.
Qed.

Lemma continues_extending (W : World) (sent : list (list Content)) :
  forall h, continues W h sent -> extending h sent.
Proof.
  induction sent as [|h1 rest IH]; intros h H; [exact I|].
  inversion H; subst. split; [now eexists | now apply IH].
Qed.

Lemma tryBlock_continues (W : World) fuel prompt p :
  exists sent,
    requests (pageOf (tryBlock W fuel prompt p))
    = (requests p ++ [userMessage prompt] :: sent)%list
    /\ continues W [userMessage prompt] sent.
Proof.
  unfold tryBlock, bind. rewrite callModel_spec. cbv zeta.
  destruct (generateContent W (ticks p) [userMessage prompt]) as [e | r] eqn:Hg.
  - exists []. split; [reflexivity | constructor].
  - rewrite respond_requests.
    match goal with
    | |- context [whileLoop W fuel ?h r ?q] =>
        destruct (whileLoop_continues W fuel h r q _ Hg) as [sent [Hs Hx]]
    end.
    exists sent. rewrite Hs. cbn [requests].
    rewrite <- app_assoc. now split.
Qed.

(** C5, as the code has it.  Within a request the history is only ever
    appended to.  Every pass of the loop, at any moment of any run, sends
    to the model the history it started with plus two turns, and leaves
    that same history when it returns; within a run of
    [handleFormSubmit], of the histories sent to the model one after the
    other, each earlier one is a prefix of each later one: the number of
    turns never decreases and no turn already there changes or
    disappears.  (The next request starts a history of its own.) *)
Theorem history_is_append_only (W : World) (fuel : nat) (prompt : string)
    (p : Page) :
  (exists sent,
      requests (pageOf (handleFormSubmit W fuel prompt p))
      = (requests p ++ sent)%list
      /\ appendOnly sent)
  /\ (forall history currentResponse q,
         exists callsTurn resultsTurn,
           requests (pageOf (iteration W history currentResponse q))
           = (requests q ++ [history ++ [callsTurn; resultsTurn]])%list
           /\ (returned (iteration W history currentResponse q) = None
               \/ exists r,
                    returned (iteration W history currentResponse q)
                    = Some ((history ++ [callsTurn; resultsTurn])%list, r))).
Proof.
  split.
  - destruct (String.eqb_spec prompt "") as [E | E].
    + exists []. subst prompt. simpl. rewrite app_nil_r. split; [reflexivity|].
      intros i j h h' _ Hi. now destruct i.
    + rewrite (handleFormSubmit_requests W fuel prompt p E).
      match goal with
      | |- context [tryBlock W fuel prompt ?q] =>
          destruct (tryBlock_requests W fuel prompt q) as [sent [Hs Hx]]
      end.
      exists ([userMessage prompt] :: sent). split; [exact Hs|].
      now apply extending_appendOnly.
  - intros history currentResponse q.
    destruct (iteration_requests W history currentResponse q)
      as [rs [_ [Hreq Hret]]].
    now exists (candidate0 currentResponse), (toolTurn rs).
Qed.

(** C5, as the spec has it, fails: over a session the history does not
    only grow.  Two requests in a row, each answered after one pass of
    the loop: the histories sent to the model have 1, 3, 1 and 3 turns,
    and the third is not an extension of the second. *)
Lemma history_starts_anew_with_each_request :
  let p1 := pageOf (handleFormSubmit Sample.agentic 1 "Cool the room"
                      Sample.emptyPage) in
  let p2 := pageOf (handleFormSubmit Sample.agentic 1 "And now?" p1) in
  map (@List.length Content) (requests p2) = [1; 3; 1; 3]%nat
  /\ ~ appendOnly (requests p2).
Proof.
  split; [reflexivity|].
  intros H.
  destruct (H 1%nat 2%nat _ _ (Nat.le_succ_diag_r 1) eq_refl eq_refl)
    as [_ Hlen].
  vm_compute in Hlen. lia.
Qed.

(** *** What is on the page already does not matter *)

Lemma Oblivious_ret {A} (a : A) : Oblivious (ret a).
Proof. now intros p q. Qed.

Lemma Oblivious_throw {A} (e : Exn) : Oblivious (@throw A e).
Proof. now intros p q. Qed.

Lemma Oblivious_lift {A} (r : Exn + A) : Oblivious (lift r).
Proof. destruct r; [apply Oblivious_throw | apply Oblivious_ret]. Qed.

Lemma Oblivious_tick : Oblivious tick.
Proof. now intros p q. Qed.

Lemma Oblivious_appendChild (el : MessageEl) : Oblivious (appendChild el).
Proof.
  intros p q. unfold appendChild, graft. simpl. now rewrite app_assoc.
Qed.

Lemma Oblivious_bind {A B} (c : M A) (k : A -> M B) :
  Oblivious c -> (forall a, Oblivious (k a)) -> Oblivious (bind c k).
Proof.
  intros Hc Hk p q. unfold bind. rewrite Hc.
  destruct (c q) as [a q' | e q' | q']; simpl; [apply Hk | reflexivity ..].
Qed.

Lemma Oblivious_tryCatch {A} (c : M A) (handler : Exn -> M A) :
  Oblivious c -> (forall e, Oblivious (handler e)) ->
  Oblivious (tryCatch c handler).
Proof.
  intros Hc Hh p q. unfold tryCatch. rewrite Hc.
  destruct (c q) as [a q' | e q' | q']; simpl; [reflexivity | apply Hh | reflexivity].
Qed.

Lemma Oblivious_tryFinally {A} (c : M A) (isLoading : bool) :
  Oblivious c -> Oblivious (tryFinally c (setLoading isLoading)).
Proof.
  intros Hc p q. unfold tryFinally. rewrite Hc.
  now destruct (c q) as [a q' | e q' | q'].
Qed.

Ltac oblivious :=
  repeat first
    [ apply Oblivious_ret | apply Oblivious_throw | apply Oblivious_lift
    | apply Oblivious_tick | apply Oblivious_appendChild
    | apply Oblivious_bind; [ | intros ? ]
    | apply Oblivious_tryCatch; [ | intros ? ]
    | apply Oblivious_tryFinally
    | match goal with
      | |- Oblivious (match ?x with _ => _ end) => destruct x
      end ].

Lemma callTool_Oblivious (W : World) functionName args :
  Oblivious (callTool W functionName args).
Proof.
  unfold callTool, getWeather, getCurrentTime, controlFan, search_github_repo,
    execute_code, retrieve_knowledge, perform_code_critique.
  oblivious.
Qed.

Lemma addMessage_Oblivious (W : World) payload type :
  Oblivious (addMessage W payload type).
Proof. unfold addMessage. oblivious. Qed.

Lemma callModel_Oblivious (W : World) history : Oblivious (callModel W history).
Proof.
  intros p q. rewrite !callModel_spec. cbv zeta. cbn [ticks graft].
  destruct (generateContent W (ticks q) history); simpl;
    unfold graft; simpl; now rewrite app_assoc.
Qed.

Lemma dispatch_Oblivious (W : World) call : Oblivious (dispatch W call).
Proof.
  unfold dispatch.
  repeat first [ apply addMessage_Oblivious | apply callTool_Oblivious
               | progress oblivious ].
Qed.

Lemma forEachCall_Oblivious (W : World) calls :
  forall toolResponses, Oblivious (forEachCall W calls toolResponses).
Proof.
  induction calls as [|call rest IH]; intros acc; simpl.
  - apply Oblivious_ret.
  - apply Oblivious_bind; [apply dispatch_Oblivious | intros r; apply IH].
Qed.

Lemma iteration_Oblivious (W : World) history currentResponse :
  Oblivious (iteration W history currentResponse).
Proof.
  unfold iteration.
  apply Oblivious_bind; [apply forEachCall_Oblivious | intros rs].
  apply Oblivious_bind; [apply callModel_Oblivious | intros r].
  apply Oblivious_ret.
Qed.

Lemma whileLoop_Oblivious (W : World) fuel :
  forall history currentResponse,
    Oblivious (whileLoop W fuel history currentResponse).
Proof.
  induction fuel as [|fuel IH]; intros history currentResponse; cbn [whileLoop];
    destruct (pendingCalls currentResponse); try apply Oblivious_ret.
  - now intros p q.
  - apply Oblivious_bind; [apply iteration_Oblivious | intros hr; apply IH].
Qed.

Lemma tryBlock_Oblivious (W : World) fuel prompt :
  Oblivious (tryBlock W fuel prompt).
Proof.
  unfold tryBlock, respond.
  apply Oblivious_bind; [apply callModel_Oblivious | intros r].
  apply Oblivious_bind; [apply whileLoop_Oblivious | intros hr].
  apply Oblivious_bind; [apply addMessage_Oblivious | intros _].
  apply Oblivious_ret.
Qed.

(** A run sends the same requests on a page that has seen other
    conversations as on a blank one. *)
Lemma tryBlock_requests_afresh (W : World) fuel prompt p :
  requests (pageOf (tryBlock W fuel prompt p))
  = (requests p
     ++ requests (pageOf (tryBlock W fuel prompt
                            (mkPage [] (loading p) [] (ticks p)))))%list.
Proof.
  assert (E : p = graft p (mkPage [] (loading p) [] (ticks p))).
  { destruct p. unfold graft. simpl. now rewrite !app_nil_r. }
  rewrite E at 1. rewrite tryBlock_Oblivious.
  now destruct (tryBlock W fuel prompt _).
Qed.

(** C4, as the code has it.  Every run of [handleFormSubmit] makes a
    history of its own, holding at first the user turn of that run and
    nothing else.  That history, with all the turns of the run so far, is
    what every model call of the run sends: the first request is the user
    turn alone, and each later request is the one before it with two more
    turns, the response the model gave to it and the tool turn that
    answers the calls of that response.  The requests are those the run
    would send on a blank page: no turn of an earlier run is among
    them. *)
Theorem each_run_has_its_own_history (W : World) (fuel : nat)
    (prompt : string) (p : Page) :
  prompt <> "" ->
  exists sent,
    requests (pageOf (handleFormSubmit W fuel prompt p))
    = (requests p ++ [userMessage prompt] :: sent)%list
    /\ continues W [userMessage prompt] sent
    /\ Forall (fun contents => exists more, contents = userMessage prompt :: more)
         sent
    /\ requests (pageOf (handleFormSubmit W fuel prompt
                           (mkPage [] false [] (ticks p))))
       = [userMessage prompt] :: sent.
Proof.
  intros H.
  destruct (tryBlock_continues W fuel prompt (mkPage [] true [] (ticks p)))
    as [sent [Hs Hx]].
  cbn [requests app] in Hs.
  exists sent. split; [|split; [|split]].
  - rewrite handleFormSubmit_requests, tryBlock_requests_afresh by exact H.
    cbn [requests loading ticks]. now rewrite Hs.
  - exact Hx.
  - apply continues_extending, extending_all in Hx.
    eapply Forall_impl; [|exact Hx].
    intros h [added ->]. now exists added.
  - rewrite handleFormSubmit_requests, tryBlock_requests_afresh by exact H.
    cbn [requests loading ticks app]. exact Hs.
Qed.

Lemma each_run_has_its_own_history_witness :
  "What is my name?" <> ""
  /\ exists sent,
      requests
        (pageOf (handleFormSubmit Sample.agentic 3 "What is my name?"
                   (mkPage [] false [[userMessage "My name is Ada."]] 1)))
      = ([[userMessage "My name is Ada."]]
         ++ [userMessage "What is my name?"] :: sent)%list
      /\ continues Sample.agentic [userMessage "What is my name?"] sent
      /\ Forall (fun contents =>
                   exists more, contents = userMessage "What is my name?" :: more)
           sent
      /\ requests
           (pageOf (handleFormSubmit Sample.agentic 3 "What is my name?"
                      (mkPage [] false [] 1)))
         = [userMessage "What is my name?"] :: sent.
Proof.
  split; [discriminate|].
  apply (each_run_has_its_own_history Sample.agentic 3 "What is my name?"
           (mkPage [] false [[userMessage "My name is Ada."]] 1)).
  discriminate.
Defined.

(** C4, as the spec has it, fails: the second request of a session is
    sent without the turns of the first. *)
Lemma second_request_forgets_the_first :
  let p1 := pageOf (handleFormSubmit Sample.offline 1 "My name is Ada."
                      Sample.emptyPage) in
  let p2 := pageOf (handleFormSubmit Sample.offline 1 "What is my name?" p1) in
  requests p2
  = [ [userMessage "My name is Ada."]; [userMessage "What is my name?"] ]
  /\ ~ In (userMessage "My name is Ada.") (last (requests p2) []).
Proof.
  split; [reflexivity|].
  simpl. intros [E | []]. discriminate.
Qed.

(** *** The end of the loop *)

Lemma whileLoop_textOnly (W : World) fuel history currentResponse q :
  textOnly currentResponse ->
  whileLoop W fuel history currentResponse q
  = Returned (history, currentResponse) q.
Proof.
  intros H. apply pendingCalls_textOnly in H.
  destruct fuel; simpl; now rewrite H.
Qed.

(** With fuel for them, the loop makes the passes there are to make. *)
Lemma whileLoop_passes (W : World) (n : nat) :
  forall history r p h r' q,
    passes W n (history, r, p) (h, r', q) ->
    textOnly r' ->
    forall fuel, (n <= fuel)%nat ->
      whileLoop W fuel history r p = Returned (h, r') q.
Proof.
  induction n as [|n IH]; intros history r p h r' q Hpasses Htext fuel Hfuel.
  - inversion Hpasses; subst. now apply whileLoop_textOnly.
  - inversion Hpasses as [|n' history' r0 calls p0 h1 r1 p1 s Hcalls Hne Hit Hrest];
      subst.
    destruct fuel as [|fuel]; [lia|].
    cbn [whileLoop]. rewrite (pendingCalls_some _ _ Hcalls).
    destruct calls as [|call calls]; [now destruct Hne|].
    unfold bind. rewrite Hit. cbn [fst snd].
    apply (IH _ _ _ _ _ _ Hrest Htext). lia.
Qed.

Lemma respond_finished (W : World) fuel history currentResponse p h r q :
  whileLoop W fuel history currentResponse p = Returned (h, r) q ->
  respond W fuel history currentResponse p
  = Returned h (advance q [mkMessageEl model (TextContent (text r))] 0).
Proof.
  intros H. unfold respond, bind. rewrite H.
  cbn [snd fst addMessage appendChild ret]. unfold advance.
  now rewrite Nat.add_0_r.
Qed.

Lemma tryBlock_asked (W : World) fuel prompt p r0 :
  generateContent W (ticks p) [userMessage prompt] = inr r0 ->
  tryBlock W fuel prompt p
  = respond W fuel [userMessage prompt] r0 (asked [userMessage prompt] p).
Proof.
  intros H. unfold tryBlock, bind. rewrite callModel_spec. cbv zeta.
  now rewrite H.
Qed.

Lemma handleFormSubmit_returned (W : World) fuel prompt p h q :
  prompt <> "" ->
  tryBlock W fuel prompt (submitted prompt p) = Returned h q ->
  handleFormSubmit W fuel prompt p = Returned tt (setLoading false q).
Proof.
  intros Hp H. unfold handleFormSubmit.
  destruct (String.eqb_spec prompt "") as [E | _]; [contradiction|].
  unfold bind at 1 2.
  cbn [addMessage appendChild setLoading messages loading requests ticks].
  unfold tryFinally, tryCatch, bind. unfold submitted in H. now rewrite H.
Qed.

(** C3, as the code has it.  A response without tool-call requests ends
    the loop at once, whatever the fuel, with the history left as it is:
    the response is shown as a model message and is not pushed on the
    history.  This is so of the first response of a run and of a
    response that comes after any number of passes of the loop: in both
    cases [handleFormSubmit] returns, the answer is the last message
    shown, the loading state is off, no further request is made, and the
    history ends as it was when the response came.  When it is the first
    response, that is after one model call, the page showing the prompt
    and the answer, and the history is the user turn alone. *)
Theorem text_response_ends_the_loop (W : World) (currentResponse : Response) :
  textOnly currentResponse ->
  let answer := mkMessageEl model (TextContent (text currentResponse)) in
  (forall fuel history q,
      whileLoop W fuel history currentResponse q
      = Returned (history, currentResponse) q
      /\ respond W fuel history currentResponse q
         = Returned history (advance q [answer] 0))
  /\ (forall prompt p r0 n h q,
         prompt <> "" ->
         generateContent W (ticks p) [userMessage prompt] = inr r0 ->
         passes W n
           ([userMessage prompt], r0,
            asked [userMessage prompt] (submitted prompt p))
           (h, currentResponse, q) ->
         forall fuel, (n <= fuel)%nat ->
           tryBlock W fuel prompt (submitted prompt p)
           = Returned h (advance q [answer] 0)
           /\ handleFormSubmit W fuel prompt p
              = Returned tt
                  (mkPage (messages q ++ [answer]) false (requests q)
                     (ticks q)))
  /\ (forall fuel prompt p,
         prompt <> "" ->
         generateContent W (ticks p) [userMessage prompt]
         = inr currentResponse ->
         tryBlock W fuel prompt p
         = Returned [userMessage prompt]
             (mkPage (messages p ++ [answer]) (loading p)
                (requests p ++ [[userMessage prompt]]) (S (ticks p)))
         /\ handleFormSubmit W fuel prompt p
            = Returned tt
                (mkPage
                   (messages p
                    ++ [mkMessageEl user (TextContent prompt); answer])
                   false (requests p ++ [[userMessage prompt]])
                   (S (ticks p)))).
Proof.
  intros Htext answer.
  assert (Hrun : forall fuel prompt p r0 n h q,
             prompt <> "" ->
             generateContent W (ticks p) [userMessage prompt] = inr r0 ->
             passes W n
               ([userMessage prompt], r0,
                asked [userMessage prompt] (submitted prompt p))
               (h, currentResponse, q) ->
             (n <= fuel)%nat ->
             tryBlock W fuel prompt (submitted prompt p)
             = Returned h (advance q [answer] 0)
             /\ handleFormSubmit W fuel prompt p
                = Returned tt
                    (mkPage (messages q ++ [answer]) false (requests q)
                       (ticks q))).
  { intros fuel prompt p r0 n h q Hp Hg Hpasses Hfuel.
    assert (Htry : tryBlock W fuel prompt (submitted prompt p)
                   = Returned h (advance q [answer] 0)).
    { rewrite (tryBlock_asked W fuel prompt (submitted prompt p) r0)
        by exact Hg.
      apply respond_finished.
      exact (whileLoop_passes W n _ _ _ _ _ _ Hpasses Htext fuel Hfuel). }
    split; [exact Htry|].
    rewrite (handleFormSubmit_returned W fuel prompt p _ _ Hp Htry).
    unfold setLoading, advance. cbn [messages loading requests ticks].
    now rewrite Nat.add_0_r. }
  split; [|split].
  - intros fuel history q.
    pose proof (whileLoop_textOnly W fuel history currentResponse q Htext) as H.
    split; [exact H | now apply respond_finished].
  - intros prompt p r0 n h q Hp Hg Hpasses fuel Hfuel. now apply (Hrun _ _ _ r0 n).
  - intros fuel prompt p Hp Hg. split.
    + rewrite (tryBlock_asked W fuel prompt p currentResponse) by exact Hg.
      rewrite (respond_finished W fuel _ _ _ _ _ _
                 (whileLoop_textOnly W fuel _ _ _ Htext)).
      unfold advance, asked. cbn [messages loading requests ticks].
      now rewrite Nat.add_0_r.
    + destruct (Hrun fuel prompt p currentResponse 0%nat
                  [userMessage prompt]
                  (asked [userMessage prompt] (submitted prompt p))
                  Hp Hg (passes_none W _) (Nat.le_0_l fuel)) as [_ H].
      rewrite H. unfold asked, submitted. cbn [messages loading requests ticks].
      now rewrite <- app_assoc.
Qed.

(** One pass in the sample world whose model asks for three calls and
    then answers. *)
Lemma agentic_pass :
  exists h q,
    iteration Sample.agentic [userMessage "Cool the room"] Sample.threeCalls
      (asked [userMessage "Cool the room"]
         (submitted "Cool the room" Sample.emptyPage))
    = Returned (h, Sample.plainAnswer) q
    /\ List.length h = 3%nat
    /\ List.length (messages q) = 7%nat.
Proof.
  destruct (iteration Sample.agentic [userMessage "Cool the room"]
              Sample.threeCalls
              (asked [userMessage "Cool the room"]
                 (submitted "Cool the room" Sample.emptyPage)))
    as [[h r] q | e q | q] eqn:E; [|discriminate E ..].
  vm_compute in E. injection E as <- <- <-.
  eexists _, _. split; [reflexivity|]. split; reflexivity.
Qed.

Lemma text_response_ends_the_loop_witness :
  textOnly Sample.plainAnswer
  /\ handleFormSubmit Sample.offline 0 "What time is it?" Sample.emptyPage
     = Returned tt
         (mkPage
            [ mkMessageEl user (TextContent "What time is it?");
              mkMessageEl model (TextContent "It is noon.") ]
            false [[userMessage "What time is it?"]] 1)
  /\ exists h q,
      passes Sample.agentic 1
        ([userMessage "Cool the room"], Sample.threeCalls,
         asked [userMessage "Cool the room"]
           (submitted "Cool the room" Sample.emptyPage))
        (h, Sample.plainAnswer, q)
      /\ handleFormSubmit Sample.agentic 1 "Cool the room" Sample.emptyPage
         = Returned tt
             (mkPage
                (messages q ++ [mkMessageEl model (TextContent "It is noon.")])
                false (requests q) (ticks q)).
Proof.
  assert (H : textOnly Sample.plainAnswer) by (now left).
  split; [exact H|]. split.
  - exact (proj2 (proj2 (proj2 (text_response_ends_the_loop Sample.offline
                                  Sample.plainAnswer H))
                    0%nat "What time is it?" Sample.emptyPage
                    ltac:(discriminate) eq_refl)).
  - destruct agentic_pass as [h [q [E _]]].
    assert (Hpasses : passes Sample.agentic 1
              ([userMessage "Cool the room"], Sample.threeCalls,
               asked [userMessage "Cool the room"]
                 (submitted "Cool the room" Sample.emptyPage))
              (h, Sample.plainAnswer, q)).
    { apply (passes_more Sample.agentic 0 _ Sample.threeCalls
               [Sample.launchRocket; Sample.searchRocq; Sample.fanHigh] _ h
               Sample.plainAnswer q);
        [reflexivity | discriminate | exact E | constructor]. }
    exists h, q. split; [exact Hpasses|].
    exact (proj2 (proj1 (proj2 (text_response_ends_the_loop Sample.agentic
                                  Sample.plainAnswer H))
                    "Cool the room" Sample.emptyPage Sample.threeCalls 1%nat
                    h q ltac:(discriminate) eq_refl Hpasses 1%nat
                    (le_n 1))).
Defined.

(** C3, as the spec has it, fails: when the first response has no
    tool-call request, the history at the end of the run is the user
    turn alone; the model turn was shown, not pushed. *)
Lemma final_answer_is_not_pushed_on_history :
  pendingCalls Sample.plainAnswer = []
  /\ returned (tryBlock Sample.offline 1 "What time is it?" Sample.emptyPage)
     = Some [userMessage "What time is it?"]
  /\ returned (tryBlock Sample.offline 1 "What time is it?" Sample.emptyPage)
     <> Some [userMessage "What time is it?"; candidate0 Sample.plainAnswer]
  /\ messages
       (pageOf (tryBlock Sample.offline 1 "What time is it?" Sample.emptyPage))
     = [mkMessageEl model (TextContent "It is noon.")].
Proof.
  repeat split. discriminate.
Qed.

(** A run in which the model asks for three calls at once, one to an
    unknown tool, one that fails on the network and one that succeeds:
    two requests are sent, the second with the three answers in the
    order of the calls. *)
Example agentic_run :
  let p := pageOf (handleFormSubmit Sample.agentic 1 "Cool the room"
                     Sample.emptyPage) in
  loading p = false
  /\ map (@List.length Content) (requests p) = [1; 3]%nat
  /\ map (fun turn => map partName (parts turn)) (last (requests p) [])
     = [ [None];
         [None; None; None];
         [Some "launchRocket"; Some "search_github_repo"; Some "controlFan"] ].
Proof. repeat split. Qed.

End LoopFacts.
(* ================================================================== *)
(** ** The tools at their edges *)
(* ================================================================== *)

Module ToolEdges.

Import Tools Chat DispatchFacts.

(** *** The registry and the [switch] *)

(** X1. The dispatcher has a [case] for a name exactly when the registry
    declares the name, and [callTool] runs the function of that [case]:
    no declared tool lacks an executor, no executor lacks a
    declaration. *)
Theorem declared_iff_dispatched (W : World) (functionName : string) :
  (registered functionName
   <-> exists f, executorOf (executors W) functionName = Some f)
  /\ (forall f args,
         executorOf (executors W) functionName = Some f ->
         callTool W functionName args = f args).
Proof.
  split.
  - unfold registered. simpl. split.
    + intros [E | [E | [E | [E | [E | [E | [E | []]]]]]]]; subst functionName;
        eexists; reflexivity.
    + intros [f Hf].
      repeat match goal with
             | |- ?s = functionName \/ _ =>
                 destruct (String.eqb_spec functionName s) as [-> | ?];
                 [ left; reflexivity | right ]
             end.
      exfalso. unfold executors, executorOf in Hf.
      repeat match type of Hf with
             | context [String.eqb functionName ?s] =>
                 destruct (String.eqb_spec functionName s); [contradiction|]
             end.
      discriminate.
  - intros f args Hf. rewrite callTool_executor. now rewrite Hf.
Qed.

Lemma declared_iff_dispatched_witness :
  executorOf (executors Sample.offline) "controlFan"
  = Some (controlFan Sample.offline)
  /\ callTool Sample.offline "controlFan" (VObj [])
     = controlFan Sample.offline (VObj []).
Proof.
  split; [reflexivity|].
  apply (proj2 (declared_iff_dispatched Sample.offline "controlFan")).
  reflexivity.
Defined.

(** *** A call without arguments *)

(** X2. Every declared tool, called with [undefined] or [null] for its
    arguments, throws a [TypeError] before it consults anything (no
    random draw, no clock, no fetch: the page is as it was), and the call
    site reports it to the model as [{error: "Function Execution Failed:
    ..."}]. *)
Theorem call_without_arguments_fails (W : World) (functionName : string)
    (given : value) (p : Page) :
  registered functionName ->
  nullish given = true ->
  exists site,
    callTool W functionName given p
    = Thrown (mkExn (typeErrorMessage W site given)) p
    /\ returned (dispatch W (mkCall functionName given) p)
       = Some (mkToolResponse functionName
                 (VObj [ ("error",
                          VStr ("Function Execution Failed: "
                                ++ typeErrorMessage W site given)) ])).
Proof.
  intros Hr Hn. unfold registered in Hr. simpl in Hr.
  assert (Hargs : given = VUndefined \/ given = VNull)
    by (destruct given; try discriminate; auto).
  assert (Hall : exists site, forall q,
             callTool W functionName given q
             = Thrown (mkExn (typeErrorMessage W site given)) q).
  { destruct Hr as [E | [E | [E | [E | [E | [E | [E | []]]]]]]];
      subst functionName; destruct Hargs as [-> | ->];
      eexists; intros q; reflexivity. }
  destruct Hall as [site Hall]. exists site. split; [apply Hall|].
  unfold dispatch, bind, tryCatch. cbn [name args addMessage appendChild].
  rewrite Hall. unfold addMessage. now rewrite resultHtml_errorResult.
Qed.

Lemma call_without_arguments_fails_witness :
  registered "getWeather" /\ nullish VUndefined = true
  /\ exists site,
      callTool Sample.offline "getWeather" VUndefined Sample.emptyPage
      = Thrown (mkExn (typeErrorMessage Sample.offline site VUndefined))
          Sample.emptyPage
      /\ returned (dispatch Sample.offline (mkCall "getWeather" VUndefined)
                     Sample.emptyPage)
         = Some (mkToolResponse "getWeather"
                   (VObj [ ("error",
                            VStr ("Function Execution Failed: "
                                  ++ typeErrorMessage Sample.offline site
                                       VUndefined)) ])).
Proof.
  assert (H : registered "getWeather") by (unfold registered; simpl; tauto).
  split; [exact H|]. split; [reflexivity|].
  exact (call_without_arguments_fails Sample.offline "getWeather" VUndefined
           Sample.emptyPage H eq_refl).
Defined.

(** *** [getWeather] with a unit *)

(** X3. For any argument object, [getWeather] reports a temperature
    between 10 and 49 that is the draw alone: the unit only picks the
    letter after the number, [C] exactly when [unit] is the string
    "celsius" and [F] for anything else, also for a unit outside the
    declared two; the number is not converted.  The location comes back
    as given, [undefined] when it is missing. *)
Theorem getWeather_unit_picks_the_letter (W : World)
    (fields : list (string * value)) (p : Page) :
  Float.inUnitInterval (Math_random W (ticks p)) ->
  let n := Float.floorTimes40 (Math_random W (ticks p)) + 10 in
  10 <= n <= 49
  /\ callTool W "getWeather" (VObj fields) p
     = Returned
         (VObj [ ("temperature",
                  VStr (numberToString n ++ "° "
                        ++ (if isString (lookup "unit" fields) "celsius"
                            then "C" else "F")));
                 ("location", lookup "location" fields) ])
         (advance p [] 1).
Proof.
  intros Hd n. split.
  - apply ToolFacts.floorTimes40_range in Hd. unfold n. lia.
  - assert (Hu : isString (orDefault (lookup "unit" fields) (VStr "fahrenheit"))
                   "celsius"
                 = isString (lookup "unit" fields) "celsius")
      by now destruct (lookup "unit" fields).
    change (callTool W "getWeather" (VObj fields) p)
      with (getWeather W (VObj fields) p).
    unfold getWeather, bind, lift, getProp, ret, tick. rewrite Hu.
    unfold advance. now rewrite app_nil_r, Nat.add_1_r.
Qed.

Lemma getWeather_unit_picks_the_letter_witness :
  Float.inUnitInterval (Math_random Sample.offline (ticks Sample.emptyPage))
  /\ callTool Sample.offline "getWeather"
       (VObj [("location", VStr "Oslo"); ("unit", VStr "kelvin")])
       Sample.emptyPage
     = Returned
         (VObj [ ("temperature", VStr "30° F"); ("location", VStr "Oslo") ])
         (mkPage [] false [] 1).
Proof.
  assert (H : Float.inUnitInterval
                (Math_random Sample.offline (ticks Sample.emptyPage))).
  { unfold Float.inUnitInterval. simpl. lia. }
  split; [exact H|].
  exact (proj2 (getWeather_unit_picks_the_letter Sample.offline
                  [("location", VStr "Oslo"); ("unit", VStr "kelvin")]
                  Sample.emptyPage H)).
Defined.

(** *** [perform_code_critique] with missing fields *)

(** X4. For any argument object, [perform_code_critique] returns a
    critique exactly when [code_block] can be printed and
    [execution_logs] is a string.  Otherwise the call throws a
    [TypeError], which the call site reports to the model: the one of
    printing [code_block]; else the one of printing [execution_logs];
    else, [execution_logs] being printable but no string, the one of
    calling a [toLowerCase] that is not there, worded by the engine for
    the value at hand (a missing [execution_logs] and a number do not
    read alike).  A missing [code_block] does no harm: the critique then
    quotes the text "undefined". *)
Theorem critique_needs_string_logs (W : World)
    (fields : list (string * value)) (p : Page) :
  let code_block := lookup "code_block" fields in
  let execution_logs := lookup "execution_logs" fields in
  ((exists critique,
       callTool W "perform_code_critique" (VObj fields) p
       = Returned (VObj [("critique", VStr critique)]) p)
   <-> printable code_block = true
       /\ exists logs, execution_logs = VStr logs)
  /\ (printable code_block = false ->
      callTool W "perform_code_critique" (VObj fields) p
      = Thrown (mkExn (typeErrorMessage W "${code_block}" code_block)) p)
  /\ (printable code_block = true ->
      printable execution_logs = false ->
      callTool W "perform_code_critique" (VObj fields) p
      = Thrown (mkExn (typeErrorMessage W "${execution_logs}" execution_logs))
          p)
  /\ (printable code_block = true ->
      printable execution_logs = true ->
      (forall logs, execution_logs <> VStr logs) ->
      callTool W "perform_code_critique" (VObj fields) p
      = Thrown
          (mkExn (typeErrorMessage W "execution_logs.toLowerCase"
                    execution_logs))
          p)
  /\ (forall logs,
         code_block = VUndefined ->
         execution_logs = VStr logs ->
         exists ending,
           callTool W "perform_code_critique" (VObj fields) p
           = Returned
               (VObj [ ("critique",
                        VStr ("Critique for code:" ++ LF ++ "---" ++ LF
                              ++ "undefined" ++ LF ++ "---" ++ LF
                              ++ "Based on logs:" ++ LF ++ "---" ++ LF
                              ++ logs ++ LF ++ "---" ++ LF ++ ending)) ])
               p).
Proof.
  intros code_block execution_logs.
  change (callTool W "perform_code_critique" (VObj fields) p)
    with (perform_code_critique W (VObj fields) p).
  unfold perform_code_critique, bind, lift, getProp, print, typeError, ret,
    throw, printable.
  fold code_block execution_logs.
  split; [|split; [|split; [|split]]].
  - split.
    + intros [critique H].
      destruct (toString code_block); [|discriminate H].
      split; [reflexivity|].
      destruct (toString execution_logs); [|discriminate H].
      destruct execution_logs; try discriminate H. now eexists.
    + intros [Hc [logs Hl]]. rewrite Hl.
      destruct (toString code_block); [|discriminate Hc]. cbn [toString].
      destruct (Str.includes (Str.toLowerCase logs) "error"); now eexists.
  - intros Hc. now destruct (toString code_block).
  - intros Hc Hl. destruct (toString code_block); [|discriminate Hc].
    now destruct (toString execution_logs).
  - intros Hc Hl Hs. destruct (toString code_block); [|discriminate Hc].
    destruct (toString execution_logs); [|discriminate Hl].
    destruct execution_logs as [| | | |logs| |]; try reflexivity.
    now destruct (Hs logs).
  - intros logs Hc Hl. rewrite Hc, Hl. cbn [toString]. unfold critiqueHead.
    destruct (Str.includes (Str.toLowerCase logs) "error");
      eexists; rewrite !ToolFacts.append_assoc; reflexivity.
Qed.

Lemma critique_needs_string_logs_witness :
  callTool Sample.offline "perform_code_critique"
    (VObj [("code_block", VObj [("toString", VNum "1")]);
           ("execution_logs", VStr "ok")])
    Sample.emptyPage
  = Thrown (mkExn "Cannot convert object to primitive value (${code_block})")
      Sample.emptyPage
  /\ callTool Sample.offline "perform_code_critique"
       (VObj [("code_block", VStr "x = 1"); ("execution_logs", VNum "7")])
       Sample.emptyPage
     = Thrown (mkExn "execution_logs.toLowerCase is not a function")
         Sample.emptyPage
  /\ callTool Sample.offline "perform_code_critique"
       (VObj [("code_block", VStr "x = 1")]) Sample.emptyPage
     = Thrown
         (mkExn "Cannot read properties of undefined (execution_logs.toLowerCase)")
         Sample.emptyPage.
Proof.
  split; [|split].
  - exact (proj1 (proj2 (critique_needs_string_logs Sample.offline
                           [("code_block", VObj [("toString", VNum "1")]);
                            ("execution_logs", VStr "ok")]
                           Sample.emptyPage))
             eq_refl).
  - refine (proj1 (proj2 (proj2 (proj2
              (critique_needs_string_logs Sample.offline
                 [("code_block", VStr "x = 1"); ("execution_logs", VNum "7")]
                 Sample.emptyPage))))
              eq_refl eq_refl _).
    intros logs. discriminate.
  - refine (proj1 (proj2 (proj2 (proj2
              (critique_needs_string_logs Sample.offline
                 [("code_block", VStr "x = 1")] Sample.emptyPage))))
              eq_refl eq_refl _).
    intros logs. discriminate.
Defined.

(** *** The search URL *)

Lemma nat_of_ascii_small (c : ascii) : (nat_of_ascii c < 256)%nat.
Proof. destruct c as [[] [] [] [] [] [] [] []]; vm_compute; lia. Qed.

Lemma hexDigit_code (k : nat) :
  (k < 16)%nat ->
  nat_of_ascii (Str.hexDigit k) = if (k <? 10)%nat then (48 + k)%nat else (55 + k)%nat.
Proof.
  intros H. unfold Str.hexDigit.
  destruct (Nat.ltb_spec k 10); apply nat_ascii_embedding; lia.
Qed.

Lemma hexDigit_injective (a b : nat) :
  (a < 16)%nat -> (b < 16)%nat -> Str.hexDigit a = Str.hexDigit b -> a = b.
Proof.
  intros Ha Hb H. apply (f_equal nat_of_ascii) in H.
  rewrite !hexDigit_code in H by assumption.
  destruct (Nat.ltb_spec a 10), (Nat.ltb_spec b 10); lia.
Qed.

Lemma hexDigit_percentOrHex (k : nat) :
  (k < 16)%nat -> percentOrHex (Str.hexDigit k) = true.
Proof.
  intros H. unfold percentOrHex. rewrite hexDigit_code by assumption.
  destruct (Nat.ltb_spec k 10);
    repeat rewrite ?orb_true_iff, ?andb_true_iff, ?Nat.leb_le, ?Nat.eqb_eq; lia.
Qed.

Lemma encodeURIComponent_cons (c : ascii) (s : string) :
  Str.encodeURIComponent (String c s)
  = if Str.loneSurrogate c s then None
    else match Str.encodeURIComponent s with
         | None => None
         | Some encoded =>
             if Str.uriUnreserved c then Some (String c encoded)
             else Some (String "%"
                          (String (Str.hexDigit (nat_of_ascii c / 16))
                             (String (Str.hexDigit (nat_of_ascii c mod 16))
                                encoded)))
         end.
Proof. reflexivity. Qed.

Lemma encodeURIComponent_urlSafe (s : string) :
  forall query,
    Str.encodeURIComponent s = Some query -> allChars urlSafe query = true.
Proof.
  induction s as [|c s IH]; intros query H.
  - now injection H as <-.
  - rewrite encodeURIComponent_cons in H.
    destruct (Str.loneSurrogate c s); [discriminate|].
    destruct (Str.encodeURIComponent s) as [encoded|]; [|discriminate].
    specialize (IH encoded eq_refl).
    destruct (Str.uriUnreserved c) eqn:E.
    + assert (Hq : query = String c encoded) by congruence.
      subst query. cbn [allChars]. rewrite IH.
      unfold urlSafe. now rewrite E.
    + assert (Hq : query
                   = String "%"
                       (String (Str.hexDigit (nat_of_ascii c / 16))
                          (String (Str.hexDigit (nat_of_ascii c mod 16))
                             encoded))) by congruence.
      subst query. cbn [allChars]. rewrite IH.
      pose proof (nat_of_ascii_small c) as Hc.
      unfold urlSafe at 2 3. rewrite !hexDigit_percentOrHex, !orb_true_r.
      * reflexivity.
      * apply Nat.mod_upper_bound. lia.
      * apply Nat.Div0.div_lt_upper_bound. lia.
Qed.

Lemma allChars_impl (f g : ascii -> bool) (s : string) :
  (forall c, f c = true -> g c = true) ->
  allChars f s = true -> allChars g s = true.
Proof.
  intros H. induction s as [|c s IH]; [reflexivity|]. cbn [allChars].
  rewrite !andb_true_iff. intros [Hc Hs]. split; [now apply H | now apply IH].
Qed.

Lemma append_inv_head (a s t : string) : a ++ s = a ++ t -> s = t.
Proof.
  induction a as [|c a IH]; [now intros H|].
  cbn [append]. intros [= H]. now apply IH.
Qed.

Lemma append_inv_tail (a b s : string) : a ++ s = b ++ s -> a = b.
Proof.
  intros H. apply (f_equal list_ascii_of_string) in H.
  rewrite !ToolFacts.list_ascii_of_append in H. apply app_inv_tail in H.
  apply (f_equal string_of_list_ascii) in H.
  now rewrite !string_of_list_ascii_of_string in H.
Qed.

(** A URL is made exactly when the term can be printed and the query
    encoded. *)
Lemma searchUrl_made (W : World) (search_term : value) (url : string) :
  searchUrl W search_term = inr url
  <-> exists termText query,
        toString search_term = Some termText
        /\ Str.encodeURIComponent (termText ++ " in:name,description,readme")
           = Some query
        /\ url = GITHUB_API_URL ++ "?q=" ++ query
                 ++ "&sort=stars&order=desc&per_page=5".
Proof.
  unfold searchUrl, print, typeError, bindE. split.
  - destruct (toString search_term) as [termText|]; [|discriminate].
    destruct (Str.encodeURIComponent _) as [query|] eqn:E; [|discriminate].
    intros [= <-]. now exists termText, query.
  - intros [termText [query [-> [-> ->]]]]. reflexivity.
Qed.

(** X5. Whatever the search term, a URL the tool fetches is the fixed
    address and parameters around the encoded query, and the query is
    made of unreserved characters, percent signs and hex digits only: no
    [&], [=], [#], [?], [/], [+] or space of the term reaches the URL,
    so a term cannot add or change a parameter. *)
Theorem search_term_cannot_alter_the_url (W : World) (search_term : value)
    (url : string) :
  searchUrl W search_term = inr url ->
  exists query,
    url
    = "https://api.github.com/search/repositories?q=" ++ query
      ++ "&sort=stars&order=desc&per_page=5"
    /\ allChars urlSafe query = true
    /\ allChars
         (fun c =>
            negb (existsb (Ascii.eqb c)
                    ["&"; "="; "#"; "?"; "/"; "+"; " "]%char))
         query
       = true.
Proof.
  intros H. apply searchUrl_made in H.
  destruct H as [termText [query [_ [Hq ->]]]].
  exists query. split; [reflexivity|].
  pose proof (encodeURIComponent_urlSafe _ _ Hq) as H.
  split; [exact H|].
  revert H. apply allChars_impl.
  intros c. destruct c as [[] [] [] [] [] [] [] []]; vm_compute; congruence.
Qed.

Lemma search_term_cannot_alter_the_url_witness :
  searchUrl Sample.offline (VStr "a&b=c #d")
  = inr "https://api.github.com/search/repositories?q=a%26b%3Dc%20%23d%20in%3Aname%2Cdescription%2Creadme&sort=stars&order=desc&per_page=5"
  /\ exists query,
      "https://api.github.com/search/repositories?q=a%26b%3Dc%20%23d%20in%3Aname%2Cdescription%2Creadme&sort=stars&order=desc&per_page=5"
      = "https://api.github.com/search/repositories?q=" ++ query
        ++ "&sort=stars&order=desc&per_page=5"
      /\ allChars urlSafe query = true
      /\ allChars
           (fun c =>
              negb (existsb (Ascii.eqb c)
                      ["&"; "="; "#"; "?"; "/"; "+"; " "]%char))
           query
         = true.
Proof.
  split; [reflexivity|].
  exact (search_term_cannot_alter_the_url Sample.offline (VStr "a&b=c #d")
           _ eq_refl).
Defined.

(** [encodeURIComponent] loses nothing: two texts with the same
    encoding are the same text. *)
Lemma encodeURIComponent_injective (s : string) :
  forall t query,
    Str.encodeURIComponent s = Some query ->
    Str.encodeURIComponent t = Some query -> s = t.
Proof.
  induction s as [|c s IH]; intros [|d t] query Hs Ht.
  - reflexivity.
  - injection Hs as <-. rewrite encodeURIComponent_cons in Ht.
    destruct (Str.loneSurrogate d t); [discriminate|].
    destruct (Str.encodeURIComponent t); [|discriminate].
    destruct (Str.uriUnreserved d); discriminate.
  - injection Ht as <-. rewrite encodeURIComponent_cons in Hs.
    destruct (Str.loneSurrogate c s); [discriminate|].
    destruct (Str.encodeURIComponent s); [|discriminate].
    destruct (Str.uriUnreserved c); discriminate.
  - rewrite encodeURIComponent_cons in Hs, Ht.
    destruct (Str.loneSurrogate c s); [discriminate|].
    destruct (Str.loneSurrogate d t); [discriminate|].
    destruct (Str.encodeURIComponent s) as [es|] eqn:Es; [|discriminate].
    destruct (Str.encodeURIComponent t) as [et|] eqn:Et; [|discriminate].
    rewrite <- Hs in Ht. clear Hs.
    destruct (Str.uriUnreserved c) eqn:Ec, (Str.uriUnreserved d) eqn:Ed.
    + injection Ht as Hd Hrest. subst d et.
      now rewrite (IH t es eq_refl Et).
    + injection Ht as Hc _. subst c. discriminate Ec.
    + injection Ht as Hd _. subst d. discriminate Ed.
    + injection Ht as H1' H2' H.
      assert (H1 : Str.hexDigit (nat_of_ascii d / 16)
                   = Str.hexDigit (nat_of_ascii c / 16)) by exact H1'.
      assert (H2 : Str.hexDigit (nat_of_ascii d mod 16)
                   = Str.hexDigit (nat_of_ascii c mod 16)) by exact H2'.
      clear H1' H2'.
      pose proof (nat_of_ascii_small c) as Hc.
      pose proof (nat_of_ascii_small d) as Hd.
      apply hexDigit_injective in H1;
        [ | apply Nat.Div0.div_lt_upper_bound; lia
          | apply Nat.Div0.div_lt_upper_bound; lia ].
      apply hexDigit_injective in H2;
        [ | apply Nat.mod_upper_bound; lia | apply Nat.mod_upper_bound; lia ].
      assert (E : nat_of_ascii c = nat_of_ascii d).
      { rewrite (Nat.div_mod_eq (nat_of_ascii c) 16),
          (Nat.div_mod_eq (nat_of_ascii d) 16). now rewrite H1, H2. }
      apply (f_equal ascii_of_nat) in E. rewrite !ascii_nat_embedding in E.
      subst d et. now rewrite (IH t es eq_refl Et).
Qed.

(** X6. The URL keeps the whole search term: two calls fetch the same
    URL only if their terms print as the same text, so no two different
    texts are ever searched as one (a number and the text of its digits
    are). *)
Theorem same_url_same_term (W : World) (t1 t2 : value) (url : string) :
  searchUrl W t1 = inr url ->
  searchUrl W t2 = inr url ->
  toString t1 = toString t2.
Proof.
  intros H1 H2. apply searchUrl_made in H1, H2.
  destruct H1 as [text1 [query1 [-> [Hq1 ->]]]].
  destruct H2 as [text2 [query2 [-> [Hq2 H]]]].
  apply append_inv_head in H. apply append_inv_head in H.
  apply append_inv_tail in H. subst query2.
  pose proof (encodeURIComponent_injective _ _ _ Hq1 Hq2) as E.
  apply append_inv_tail in E. now rewrite E.
Qed.

Lemma same_url_same_term_witness :
  searchUrl Sample.offline (VNum "5") = searchUrl Sample.offline (VStr "5")
  /\ toString (VNum "5") = toString (VStr "5").
Proof.
  split; [reflexivity|].
  exact (same_url_same_term Sample.offline (VNum "5") (VStr "5") _
           eq_refl eq_refl).
Defined.

(** A term that cannot be printed, or holds a surrogate without its
    partner, gives no URL. *)
Example no_url_for_such_terms :
  searchUrl Sample.offline (VObj [("toString", VNum "1")])
  = inl (mkExn "Cannot convert object to primitive value (${search_term})")
  /\ searchUrl Sample.offline
       (VStr (String (ascii_of_nat 237)
                (String (ascii_of_nat 160) (String (ascii_of_nat 128) ""))))
     = inl (mkExn "URI malformed").
Proof. split; reflexivity. Qed.

(** *** [search_github_repo] *)

Lemma repoSummary_summaryOf (W : World) (repo : value) :
  nullish repo = false -> repoSummary W repo = inr (summaryOf repo).
Proof. destruct repo; intros H; try discriminate H; reflexivity. Qed.

Lemma repoSummary_nullish (W : World) (repo : value) :
  nullish repo = true -> exists e, repoSummary W repo = inl e.
Proof. destruct repo; intros H; try discriminate H; now eexists. Qed.

(** [map] goes through when no item is [null], and only then. *)
Lemma mapThrowing_repoSummary (W : World) (repos : list value) :
  (forallb (fun repo => negb (nullish repo)) repos = true
   /\ mapThrowing (repoSummary W) repos = inr (map summaryOf repos))
  \/ (forallb (fun repo => negb (nullish repo)) repos = false
      /\ exists e, mapThrowing (repoSummary W) repos = inl e).
Proof.
  induction repos as [|repo rest IH]; [now left|].
  cbn [forallb mapThrowing map]. unfold bindE at 1.
  destruct (nullish repo) eqn:E.
  - right. destruct (repoSummary_nullish W repo E) as [e ->].
    split; [reflexivity | now exists e].
  - rewrite (repoSummary_summaryOf W repo E). cbn [negb andb]. unfold bindE.
    destruct IH as [[-> ->] | [-> [e ->]]]; [now left | right; eauto].
Qed.

Lemma searchBody_usable (W : World) (response : FetchResponse)
    (result : value) :
  searchBody W response = inr result
  <-> exists total_count totalText repos,
        usable response total_count totalText repos
        /\ result = searchSuccess total_count totalText repos.
Proof.
  unfold searchBody, usable, bindE, awaitJson. split.
  - destruct (ok response) eqn:Eok; cbn [negb].
    + apply FailureFacts.ok_range in Eok.
      destruct (json response) as [data | e]; [|discriminate].
      destruct data as [| | | | | |fields]; cbn [getProp typeError];
        try discriminate.
      destruct (lookup "items" fields) as [| | | | |repos|] eqn:Ei;
        cbn [mapItems typeError bindE]; try discriminate.
      unfold bindE.
      destruct (mapThrowing_repoSummary W repos) as [[Hall ->] | [_ [e ->]]];
        [|discriminate].
      unfold print, typeError.
      destruct (toString (lookup "total_count" fields)) as [totalText|] eqn:Et;
        [|discriminate].
      intros [= <-]. exists (lookup "total_count" fields), totalText, repos.
      split; [|reflexivity]. split; [exact Eok|]. now exists fields.
    + destruct (json response) as [data | e]; [|discriminate].
      destruct (getProp W "errorData.message" data "message") as [e | msg];
        [discriminate|].
      destruct (print W "${errorData.message}" msg); discriminate.
  - intros [total_count [totalText [repos
             [[Hok [fields [-> [Hi [Ht [Hp Hall]]]]]] ->]]]].
    apply FailureFacts.ok_range in Hok. rewrite Hok.
    cbn [negb getProp]. rewrite Hi. cbn [mapItems]. unfold bindE.
    destruct (mapThrowing_repoSummary W repos) as [[_ ->] | [Hf _]];
      [|congruence].
    unfold print. now rewrite Ht, Hp.
Qed.

(** X7. The search goes through exactly on a usable answer: a success
    status and a JSON object whose [items] is an array without [null]
    entries and whose [total_count] can be printed.  The result then has
    one summary per item, in the order of the items and however many
    there are (the text says "top 5", the list is not cut), with
    [results_count] the [total_count] of the answer and its printed form
    in the message; a missing key of an item becomes [undefined] in its
    summary. *)
Theorem search_goes_through_iff_usable (W : World) (response : FetchResponse)
    (result : value) :
  searchBody W response = inr result
  <-> exists total_count totalText repos,
        usable response total_count totalText repos
        /\ result = searchSuccess total_count totalText repos.
Proof. apply searchBody_usable. Qed.

(** A [total_count] that cannot be printed spoils an answer that is
    usable otherwise. *)
Example unprintable_total_count :
  exists e,
    searchBody Sample.offline
      (mkFetchResponse 200
         (JsonValue
            (VObj [ ("total_count", VObj [("toString", VNum "1")]);
                    ("items", VArr [Sample.rocqRepo]) ])))
    = inl e.
Proof. eexists. reflexivity. Qed.

Lemma search_throws_early (W : World) (fields : list (string * value))
    (e : Exn) (p : Page) :
  searchUrl W (lookup "search_term" fields) = inl e ->
  search_github_repo W (VObj fields) p = Thrown e p.
Proof.
  intros H. unfold search_github_repo, bind at 1 2, lift, getProp, ret.
  now rewrite H.
Qed.

Lemma search_github_repo_returns (W : World)
    (fields : list (string * value)) (url : string) (p : Page) :
  searchUrl W (lookup "search_term" fields) = inr url ->
  exists result,
    search_github_repo W (VObj fields) p = Returned result (advance p [] 1)
    /\ ((field result "status" = VStr "failure"
         /\ exists e, result = searchFailure e)
        \/ (field result "status" = VStr "success"
            /\ exists response total_count totalText repos,
                fetch W (ticks p) url = FetchResolves response
                /\ usable response total_count totalText repos
                /\ result = searchSuccess total_count totalText repos)).
Proof.
  intros Hurl. rewrite (FailureFacts.search_with_url W fields url p Hurl).
  unfold bind, tryCatch, tick, lift, ret, throw.
  cbn [ticks].
  assert (Hp : mkPage (messages p) (loading p) (requests p) (S (ticks p))
               = advance p [] 1).
  { unfold advance. now rewrite app_nil_r, Nat.add_1_r. }
  rewrite Hp.
  destruct (fetch W (ticks p) url) as [e | response] eqn:Ef.
  - exists (searchFailure e). split; [reflexivity|]. left. eauto.
  - destruct (searchBody W response) as [e | result] eqn:Eb.
    + exists (searchFailure e). split; [reflexivity|]. left. eauto.
    + exists result. split; [reflexivity|]. right.
      apply searchBody_usable in Eb.
      destruct Eb as [total_count [totalText [repos [Hu ->]]]].
      split; [reflexivity|]. now exists response, total_count, totalText, repos.
Qed.

(** X8. Given an argument object, [search_github_repo] throws only where
    no URL can be made of the search term (the term cannot be printed,
    or cannot be encoded): that is before the [try], and nothing is
    fetched.  With a URL, it never throws: it fetches that URL once and
    returns an object whose [status] is "success" or "failure", whatever
    the network and the answer are; and it is "success" only if the
    fetch resolved to a usable answer. *)
Theorem search_always_returns_a_status (W : World)
    (fields : list (string * value)) (p : Page) :
  (forall e,
      searchUrl W (lookup "search_term" fields) = inl e ->
      callTool W "search_github_repo" (VObj fields) p = Thrown e p)
  /\ (forall url,
         searchUrl W (lookup "search_term" fields) = inr url ->
         exists result,
           callTool W "search_github_repo" (VObj fields) p
           = Returned result (advance p [] 1)
           /\ ((field result "status" = VStr "failure"
                /\ exists e, result = searchFailure e)
               \/ (field result "status" = VStr "success"
                   /\ exists response total_count totalText repos,
                       fetch W (ticks p) url = FetchResolves response
                       /\ usable response total_count totalText repos
                       /\ result
                          = searchSuccess total_count totalText repos))).
Proof.
  split.
  - intros e. apply search_throws_early.
  - intros url. apply search_github_repo_returns.
Qed.

(** The sample answer with a bare repository goes through, the missing
    keys of the repository left [undefined]. *)
Example search_keeps_bare_repositories :
  searchBody Sample.offline Sample.bareRepoBody
  = inr (searchSuccess (VNum "2") "2" [Sample.rocqRepo; Sample.bareRepo])
  /\ summaryOf Sample.bareRepo
     = VObj [ ("name", VStr "someone/notes");
              ("url", VStr "https://github.com/someone/notes");
              ("description", VUndefined); ("stars", VUndefined) ].
Proof. split; reflexivity. Qed.

(** *** Incomplete argument objects *)

(** X20. [getWeather], [getCurrentTime], [controlFan], [execute_code]
    and [retrieve_knowledge] return a result for any argument object,
    however incomplete, whose values can be printed: a missing key is
    read as [undefined], never as an error.  The tool shows nothing on
    the page and consults the outside world at most once. *)
Theorem tools_accept_incomplete_objects (W : World) (functionName : string)
    (fields : list (string * value)) (p : Page) :
  registered functionName ->
  functionName <> "perform_code_critique" ->
  functionName <> "search_github_repo" ->
  (forall key, printable (lookup key fields) = true) ->
  exists result n,
    callTool W functionName (VObj fields) p = Returned result (advance p [] n)
    /\ (n <= 1)%nat.
Proof.
  intros Hr Hn Hs Hp. unfold registered in Hr. simpl in Hr.
  assert (H0 : p = advance p [] 0) by (now rewrite advance_nothing).
  assert (H1 : mkPage (messages p) (loading p) (requests p) (S (ticks p))
               = advance p [] 1).
  { unfold advance. now rewrite app_nil_r, Nat.add_1_r. }
  assert (Hprint : forall site key,
             exists text, print W site (lookup key fields) = inr text).
  { intros site key. specialize (Hp key). unfold printable in Hp.
    unfold print. destruct (toString (lookup key fields)) as [text|];
      [now exists text | discriminate]. }
  destruct Hr as [E | [E | [E | [E | [E | [E | [E | []]]]]]]];
    subst functionName; try contradiction.
  - eexists _, 1%nat. split; [|lia].
    change (callTool W "getWeather" (VObj fields) p)
      with (getWeather W (VObj fields) p).
    unfold getWeather, bind, lift, getProp, ret, tick. now rewrite H1.
  - eexists _, 1%nat. split; [|lia].
    change (callTool W "getCurrentTime" (VObj fields) p)
      with (getCurrentTime W (VObj fields) p).
    unfold getCurrentTime, bind, lift, getProp, ret, tick. now rewrite H1.
  - destruct (Hprint "${speed}" "speed") as [speedText Es].
    destruct (Hprint "${mode}" "mode") as [modeText Em].
    eexists _, 0%nat. split; [|lia]. rewrite <- H0.
    change (callTool W "controlFan" (VObj fields) p)
      with (controlFan W (VObj fields) p).
    unfold controlFan, bind, lift, getProp, ret. rewrite Es, Em. reflexivity.
  - destruct (Hprint "${code_block}" "code_block") as [codeText Ec].
    eexists _, 0%nat. split; [|lia]. rewrite <- H0.
    change (callTool W "execute_code" (VObj fields) p)
      with (execute_code W (VObj fields) p).
    unfold execute_code, bind, lift, getProp, ret. rewrite Ec. reflexivity.
  - destruct (Hprint "${query}" "query") as [queryText Eq].
    eexists _, 0%nat. split; [|lia]. rewrite <- H0.
    change (callTool W "retrieve_knowledge" (VObj fields) p)
      with (retrieve_knowledge W (VObj fields) p).
    unfold retrieve_knowledge, bind, lift, getProp, ret. rewrite Eq.
    reflexivity.
Qed.

Lemma tools_accept_incomplete_objects_witness :
  registered "controlFan"
  /\ (forall key, printable (lookup key [("mode", VStr "low")]) = true)
  /\ exists result n,
      callTool Sample.offline "controlFan" (VObj [("mode", VStr "low")])
        Sample.emptyPage
      = Returned result (advance Sample.emptyPage [] n)
      /\ (n <= 1)%nat.
Proof.
  assert (Hr : registered "controlFan")
    by (unfold registered; simpl; tauto).
  assert (Hp : forall key, printable (lookup key [("mode", VStr "low")]) = true).
  { intros key. cbn [lookup]. now destruct (String.eqb "mode" key). }
  split; [exact Hr|]. split; [exact Hp|].
  exact (tools_accept_incomplete_objects Sample.offline "controlFan"
           [("mode", VStr "low")] Sample.emptyPage Hr
           ltac:(discriminate) ltac:(discriminate) Hp).
Defined.

(** A fan set without a speed. *)
Example controlFan_without_speed :
  returned (callTool Sample.offline "controlFan" (VObj [("mode", VStr "low")])
              Sample.emptyPage)
  = Some (VObj [ ("status", VStr "success");
                 ("message", VStr "Fan set to undefined% speed in low mode.") ]).
Proof. reflexivity. Qed.

(** A query that is missing is searched as the text "undefined". *)
Example retrieve_knowledge_without_query :
  returned (callTool Sample.offline "retrieve_knowledge" (VObj [])
              Sample.emptyPage)
  = Some (VObj [ ("knowledge",
                  VStr "Mock knowledge retrieved for query: 'undefined'. SICA agents should be modular.") ]).
Proof. reflexivity. Qed.

End ToolEdges.

(* ================================================================== *)
(** ** What is shown on the page *)
(* ================================================================== *)

Module Rendering.

Import Tools Chat DispatchFacts.

(** *** Relations every step keeps *)

Section Respecting.

Variable R : Page -> Page -> Prop.
Hypothesis R_refl : forall p, R p p.
Hypothesis R_trans : forall p q r, R p q -> R q r -> R p r.

Lemma Respects_ret {A} (a : A) : Respects R (ret a).
Proof. intros p. apply R_refl. Qed.

Lemma Respects_throw {A} (e : Exn) : Respects R (@throw A e).
Proof. intros p. apply R_refl. Qed.

Lemma Respects_lift {A} (r : Exn + A) : Respects R (lift r).
Proof. destruct r; [apply Respects_throw | apply Respects_ret]. Qed.

Lemma Respects_running {A} : Respects R (fun p => @Running A p).
Proof. intros p. apply R_refl. Qed.

Lemma Respects_bind {A B} (c : M A) (k : A -> M B) :
  Respects R c -> (forall a, Respects R (k a)) -> Respects R (bind c k).
Proof.
  intros Hc Hk p. specialize (Hc p). unfold bind.
  destruct (c p) as [a q | e q | q]; [|exact Hc ..].
  exact (R_trans _ _ _ Hc (Hk a q)).
Qed.

Lemma Respects_tryCatch {A} (c : M A) (handler : Exn -> M A) :
  Respects R c -> (forall e, Respects R (handler e)) ->
  Respects R (tryCatch c handler).
Proof.
  intros Hc Hh p. specialize (Hc p). unfold tryCatch.
  destruct (c p) as [a q | e q | q]; [exact Hc | | exact Hc].
  exact (R_trans _ _ _ Hc (Hh e q)).
Qed.

End Respecting.

Ltac respect R_refl R_trans known :=
  repeat first
    [ apply (Respects_ret _ R_refl) | apply (Respects_throw _ R_refl)
    | apply (Respects_lift _ R_refl) | apply (Respects_running _ R_refl)
    | known
    | apply (Respects_bind _ R_trans); [ | intros ? ]
    | apply (Respects_tryCatch _ R_trans); [ | intros ? ]
    | match goal with
      | |- Respects _ (match ?x with _ => _ end) => destruct x
      end ].

Lemma sameMessages_refl (p : Page) : sameMessages p p.
Proof. reflexivity. Qed.

Lemma sameMessages_trans (p q r : Page) :
  sameMessages p q -> sameMessages q r -> sameMessages p r.
Proof. unfold sameMessages. congruence. Qed.

Lemma sameLoading_refl (p : Page) : sameLoading p p.
Proof. reflexivity. Qed.

Lemma sameLoading_trans (p q r : Page) :
  sameLoading p q -> sameLoading q r -> sameLoading p r.
Proof. unfold sameLoading. congruence. Qed.

Lemma tick_sameMessages : Respects sameMessages tick.
Proof. now intros p. Qed.

Lemma tick_sameLoading : Respects sameLoading tick.
Proof. now intros p. Qed.

Lemma appendChild_sameLoading (el : MessageEl) :
  Respects sameLoading (appendChild el).
Proof. now intros p. Qed.

(** The tools show nothing. *)
Lemma callTool_sameMessages (W : World) functionName args :
  Respects sameMessages (callTool W functionName args).
Proof.
  unfold callTool, getWeather, getCurrentTime, controlFan, search_github_repo,
    execute_code, retrieve_knowledge, perform_code_critique.
  respect sameMessages_refl sameMessages_trans
    ltac:(apply tick_sameMessages).
Qed.

Lemma callTool_quiet (W : World) functionName args p :
  exists n,
    (exists v, callTool W functionName args p = Returned v (advance p [] n))
    \/ (exists e, callTool W functionName args p = Thrown e (advance p [] n)).
Proof.
  destruct (callTool_Settles W functionName args p) as [shown [n H]].
  pose proof (callTool_sameMessages W functionName args p) as Hm.
  assert (shown = []) as ->.
  { assert (E : (messages p ++ shown)%list = messages p)
      by (destruct H as [[v H] | [e H]]; rewrite H in Hm; exact Hm).
    rewrite <- (app_nil_r (messages p)) in E at 2.
    now apply app_inv_head in E. }
  exists n. exact H.
Qed.

(** *** One element per message *)

(** X9. [addMessage] either appends one element, of the class asked
    for, or throws and leaves the page as it was: a rendering that fails
    shows nothing, not half a message.  For a text, a tool call or any
    result that is not a successful repository search it never throws. *)
Theorem addMessage_appends_one_or_nothing (W : World)
    (payload : MessagePayload) (type : MessageType) (p : Page) :
  ((exists el,
       addMessage W payload type p = Returned tt (advance p [el] 0)
       /\ class el = type)
   \/ (exists e, addMessage W payload type p = Thrown e p))
  /\ (forall e,
         addMessage W payload type p = Thrown e p ->
         type = tool_result
         /\ exists result,
             payload = PResult "search_github_repo" result
             /\ (nullish result = true
                 \/ field result "status" = VStr "success")).
Proof.
  assert (Happ : forall el,
             class el = type ->
             appendChild el p = Returned tt (advance p [el] 0)).
  { intros el _. unfold appendChild, advance. now rewrite Nat.add_0_r. }
  assert (Hdump : forall functionName result,
             resultHtml W functionName result
             = inr (JsonDumpBox functionName result)
             \/ (functionName = "search_github_repo"
                 /\ (nullish result = true
                     \/ field result "status" = VStr "success"))).
  { intros functionName result. unfold resultHtml.
    destruct (String.eqb_spec functionName "search_github_repo") as [-> | _];
      [|now left].
    destruct result; cbn [getProp bindE typeError nullish]; auto.
    - unfold bindE. destruct (isString (lookup "status" fields) "success") eqn:E;
        [|now left].
      right. split; [reflexivity|]. right. unfold isString in E. simpl.
      destruct (lookup "status" fields); try discriminate E.
      apply String.eqb_eq in E. now subst. }
  destruct type, payload as [s | f a | f r]; simpl;
    try (split; [left; eexists; split; [apply Happ|]; reflexivity
                | intros e H; rewrite Happ in H by reflexivity; discriminate H]).
  unfold bind, lift.
  destruct (resultHtml W f r) as [e | b] eqn:E.
  - split; [right; now exists e|]. intros e' _. split; [reflexivity|].
    destruct (Hdump f r) as [H | [-> H]]; [congruence|]. now exists r.
  - split; [left; eexists; split; [apply Happ|]; reflexivity|].
    intros e H. cbn [ret] in H. rewrite Happ in H by reflexivity.
    discriminate H.
Qed.

Lemma addMessage_appends_one_or_nothing_witness :
  addMessage Sample.offline
    (PResult "search_github_repo"
       (searchSuccess (VNum "1") "1" [Sample.bareRepo]))
    tool_result Sample.emptyPage
  = Thrown
      (mkExn (typeErrorMessage Sample.offline "repo.stars.toLocaleString"
                VUndefined))
      Sample.emptyPage
  /\ tool_result = tool_result
  /\ exists result,
      PResult "search_github_repo"
        (searchSuccess (VNum "1") "1" [Sample.bareRepo])
      = PResult "search_github_repo" result
      /\ (nullish result = true \/ field result "status" = VStr "success").
Proof.
  assert (H : addMessage Sample.offline
                (PResult "search_github_repo"
                   (searchSuccess (VNum "1") "1" [Sample.bareRepo]))
                tool_result Sample.emptyPage
              = Thrown
                  (mkExn (typeErrorMessage Sample.offline
                            "repo.stars.toLocaleString" VUndefined))
                  Sample.emptyPage) by reflexivity.
  split; [exact H|].
  exact (proj2 (addMessage_appends_one_or_nothing Sample.offline _ _ _) _ H).
Defined.

(** *** The repository list *)







(** The search that found a repository without stars, as the model is
    told of it; and a star count that is an object with a
    [toLocaleString] of its own. *)
Example starless_search_as_reported :
  returned (dispatch (Sample.online Sample.bareRepoBody) Sample.searchRocq
              Sample.emptyPage)
  = Some (mkToolResponse "search_github_repo"
            (VObj [ ("error",
                     VStr "Function Execution Failed: Cannot read properties of undefined (repo.stars.toLocaleString)") ]))
  /\ starless
       (VObj [("stargazers_count", VObj [("toLocaleString", VNum "1")])])
     = false
  /\ drawable
       (VObj [("stargazers_count", VObj [("toLocaleString", VNum "1")])])
     = false.
Proof. repeat split. Qed.

(** The entry of a repository: its description when it has one, the
    stock sentence when the description is missing, empty or zero. *)
Example repository_entries :
  repoItem Sample.offline (summaryOf Sample.rocqRepo)
  = inr (mkRepoItem "https://github.com/rocq-prover/rocq" "rocq-prover/rocq"
           (VNum "5000") "The Rocq Prover")
  /\ map (fun description =>
            option_map repo_description
              (match repoItem Sample.offline
                       (VObj [ ("url", VStr "u"); ("name", VStr "n");
                               ("stars", VNum "1");
                               ("description", description) ]) with
               | inr item => Some item
               | inl _ => None
               end))
       [ VUndefined; VNull; VStr ""; VNum "0"; VBool false;
         VNum "7"; VStr "notes"; VObj [("toString", VNum "1")] ]
     = [ Some "No description available."; Some "No description available.";
         Some "No description available."; Some "No description available.";
         Some "No description available.";
         Some "7"; Some "notes"; None ].
Proof. split; reflexivity. Qed.

(** *** The two boxes of a call *)

Lemma resultHtml_shows (W : World) functionName result box :
  resultHtml W functionName result = inr box ->
  shows box functionName result.
Proof.
  unfold resultHtml, shows.
  destruct (String.eqb_spec functionName "search_github_repo") as [-> | _];
    [|intros [= <-]; now left].
  destruct result as [| | b | z | s | items | fields];
    cbn [getProp bindE typeError isString]; try discriminate;
    try (intros [= <-]; now left).
  unfold bindE. destruct (isString (lookup "status" fields) "success") eqn:E;
    [|intros [= <-]; now left].
  cbn [getProp]. unfold print, typeError. cbn [field].
  destruct (toString (lookup "message" fields)) as [msgText|]; [|discriminate].
  destruct (lookup "top_results" fields) as [| | | | |l|];
    try discriminate.
  destruct (mapThrowing (repoItem W) l) as [e | items]; [discriminate|].
  intros [= <-]. right. split; [reflexivity|]. split.
  - unfold isString in E.
    destruct (lookup "status" fields); try discriminate E.
    apply String.eqb_eq in E. now subst.
  - now exists msgText, items.
Qed.

Lemma addMessage_call (W : World) functionName args p :
  addMessage W (PCall functionName args) tool_call p
  = Returned tt
      (advance p [mkMessageEl tool_call (ToolCallBox functionName args)] 0).
Proof. unfold addMessage, appendChild, advance. now rewrite Nat.add_0_r. Qed.

Lemma addMessage_result (W : World) functionName result p :
  addMessage W (PResult functionName result) tool_result p
  = match resultHtml W functionName result with
    | inl e => Thrown e p
    | inr box => Returned tt (advance p [mkMessageEl tool_result box] 0)
    end.
Proof.
  unfold addMessage, bind, lift.
  destruct (resultHtml W functionName result); [reflexivity|].
  unfold ret, appendChild, advance. now rewrite Nat.add_0_r.
Qed.

Lemma dispatch_two_boxes (W : World) (call : FunctionCall)
    (p : Page) :
  exists r box n,
    dispatch W call p
    = Returned r
        (advance p
           [ mkMessageEl tool_call (ToolCallBox (name call) (args call));
             mkMessageEl tool_result box ] n)
    /\ tr_name r = name call
    /\ shows box (name call) (tr_response r).
Proof.
  set (announcement :=
         mkMessageEl tool_call (ToolCallBox (name call) (args call))).
  assert (Hend : forall box n,
             advance (advance (advance p [announcement] 0) [] n)
               [mkMessageEl tool_result box] 0
             = advance p [announcement; mkMessageEl tool_result box] n).
  { intros box n. rewrite !advance_twice. cbn [app]. now rewrite Nat.add_0_r. }
  assert (Hcatch : forall e n,
             addMessage W (PResult (name call) (errorResult e)) tool_result
               (advance (advance p [announcement] 0) [] n)
             = Returned tt
                 (advance p
                    [ announcement;
                      mkMessageEl tool_result
                        (JsonDumpBox (name call) (errorResult e)) ] n)).
  { intros e n. now rewrite addMessage_result, resultHtml_errorResult, Hend. }
  unfold dispatch. unfold bind at 1. rewrite addMessage_call. fold announcement.
  unfold tryCatch. unfold bind at 1.
  destruct (callTool_quiet W (name call) (args call)
              (advance p [announcement] 0))
    as [n [[v ->] | [e ->]]].
  - unfold bind at 1. rewrite addMessage_result.
    destruct (resultHtml W (name call) v) as [e | box] eqn:E.
    + unfold bind. rewrite Hcatch. unfold ret.
      exists (mkToolResponse (name call) (errorResult e)),
        (JsonDumpBox (name call) (errorResult e)), n.
      split; [reflexivity|]. split; [reflexivity|]. now left.
    + unfold ret. rewrite Hend.
      exists (mkToolResponse (name call) v), box, n.
      split; [reflexivity|]. split; [reflexivity|].
      now apply (resultHtml_shows W).
  - unfold bind. rewrite Hcatch. unfold ret.
    exists (mkToolResponse (name call) (errorResult e)),
      (JsonDumpBox (name call) (errorResult e)), n.
    split; [reflexivity|]. split; [reflexivity|]. now left.
Qed.


Lemma forEachCall_boxes (W : World) (calls : list FunctionCall)
    (toolResponses : list ToolResponse) (p : Page) :
  exists pushed shown n,
    forEachCall W calls toolResponses p
    = Returned (toolResponses ++ pushed)%list (advance p shown n)
    /\ map header shown
       = flat_map (fun call => [ (tool_call, Some (name call));
                                 (tool_result, Some (name call)) ]) calls
    /\ List.length shown = (2 * List.length calls)%nat.
Proof.
  revert toolResponses p.
  induction calls as [|call rest IH]; intros acc p.
  - exists [], [], 0%nat. simpl. unfold ret.
    now rewrite app_nil_r, advance_nothing.
  - destruct (dispatch_two_boxes W call p) as [r [box [n1 [E1 [_ Hs]]]]].
    set (two := [ mkMessageEl tool_call (ToolCallBox (name call) (args call));
                  mkMessageEl tool_result box ]) in *.
    destruct (IH (acc ++ [r])%list (advance p two n1))
      as [rs [s2 [n2 [E2 [Hh Hl]]]]].
    exists (r :: rs), (two ++ s2)%list, (n1 + n2)%nat. split; [|split].
    + cbn [forEachCall]. unfold bind. rewrite E1, E2, advance_twice.
      now rewrite <- app_assoc.
    + unfold two. cbn [app map flat_map]. rewrite Hh.
      unfold header. cbn [class body].
      destruct Hs as [-> | [_ [_ [msgText [items [_ ->]]]]]]; reflexivity.
    + unfold two. cbn [app List.length]. rewrite Hl. lia.
Qed.

(** X12. A batch of calls is shown in the order of the calls, two
    elements per call and nothing else: for each call its announcement,
    then its result. *)
Theorem batch_is_shown_call_by_call (W : World) (calls : list FunctionCall)
    (toolResponses : list ToolResponse) (p : Page) :
  exists pushed shown n,
    forEachCall W calls toolResponses p
    = Returned (toolResponses ++ pushed)%list (advance p shown n)
    /\ map header shown
       = flat_map (fun call => [ (tool_call, Some (name call));
                                 (tool_result, Some (name call)) ]) calls
    /\ List.length shown = (2 * List.length calls)%nat.
Proof. apply forEachCall_boxes. Qed.

(** *** What the model is told *)




End Rendering.

(* ================================================================== *)
(** ** A whole run of [handleFormSubmit] *)
(* ================================================================== *)

Module RunFacts.

Import Tools Chat DispatchFacts LoopFacts Rendering.

(** *** The loading state during a run *)

Ltac keepsLoading :=
  respect sameLoading_refl sameLoading_trans
    ltac:(first [ apply tick_sameLoading | apply appendChild_sameLoading ]).

Lemma callTool_sameLoading (W : World) functionName args :
  Respects sameLoading (callTool W functionName args).
Proof.
  unfold callTool, getWeather, getCurrentTime, controlFan, search_github_repo,
    execute_code, retrieve_knowledge, perform_code_critique.
  keepsLoading.
Qed.

Lemma addMessage_sameLoading (W : World) payload type :
  Respects sameLoading (addMessage W payload type).
Proof. unfold addMessage. keepsLoading. Qed.

Lemma callModel_sameLoading (W : World) history :
  Respects sameLoading (callModel W history).
Proof.
  intros p. rewrite callModel_spec. cbv zeta.
  now destruct (generateContent W (ticks p) history).
Qed.

Lemma dispatch_sameLoading (W : World) call :
  Respects sameLoading (dispatch W call).
Proof.
  unfold dispatch.
  respect sameLoading_refl sameLoading_trans
    ltac:(first [ apply addMessage_sameLoading | apply callTool_sameLoading ]).
Qed.

Lemma forEachCall_sameLoading (W : World) calls :
  forall toolResponses, Respects sameLoading (forEachCall W calls toolResponses).
Proof.
  induction calls as [|call rest IH]; intros acc; cbn [forEachCall].
  - apply (Respects_ret _ sameLoading_refl).
  - apply (Respects_bind _ sameLoading_trans);
      [apply dispatch_sameLoading | intros r; apply IH].
Qed.

Lemma whileLoop_sameLoading (W : World) fuel :
  forall history currentResponse,
    Respects sameLoading (whileLoop W fuel history currentResponse).
Proof.
  induction fuel as [|fuel IH]; intros history currentResponse;
    cbn [whileLoop]; destruct (pendingCalls currentResponse);
    try apply (Respects_ret _ sameLoading_refl).
  - apply (Respects_running _ sameLoading_refl).
  - apply (Respects_bind _ sameLoading_trans); [|intros hr; apply IH].
    unfold iteration.
    respect sameLoading_refl sameLoading_trans
      ltac:(first [ apply forEachCall_sameLoading
                  | apply callModel_sameLoading ]).
Qed.

Lemma tryBlock_sameLoading (W : World) fuel prompt :
  Respects sameLoading (tryBlock W fuel prompt).
Proof.
  unfold tryBlock, respond.
  respect sameLoading_refl sameLoading_trans
    ltac:(first [ apply callModel_sameLoading | apply whileLoop_sameLoading
                | apply addMessage_sameLoading ]).
Qed.

(** *** The messages of a run *)

Lemma Oblivious_messages {A} (c : M A) (p : Page) :
  Oblivious c ->
  exists shown, messages (pageOf (c p)) = (messages p ++ shown)%list.
Proof.
  intros H.
  assert (E : p = graft p (mkPage [] (loading p) [] (ticks p))).
  { destruct p. unfold graft. simpl. now rewrite !app_nil_r. }
  assert (Hc : c p = onPage (graft p) (c (mkPage [] (loading p) [] (ticks p)))).
  { rewrite <- H. now rewrite <- E. }
  rewrite Hc.
  destruct (c (mkPage [] (loading p) [] (ticks p))) as [a q | e q | q];
    now exists (messages q).
Qed.

(** When the [try] block returns, the last thing it showed is the text
    of the final response. *)
Lemma tryBlock_returned (W : World) fuel prompt p h q :
  tryBlock W fuel prompt p = Returned h q ->
  exists shown answer,
    messages q
    = (messages p ++ shown ++ [mkMessageEl model (TextContent answer)])%list.
Proof.
  unfold tryBlock, bind. rewrite callModel_spec. cbv zeta.
  destruct (generateContent W (ticks p) [userMessage prompt]) as [e | r];
    [discriminate|].
  unfold respond, bind.
  match goal with
  | |- context [whileLoop W fuel ?hh r ?pp] =>
      destruct (Oblivious_messages (whileLoop W fuel hh r) pp
                  (whileLoop_Oblivious W fuel hh r)) as [shown Hm];
      destruct (whileLoop W fuel hh r pp) as [[h1 r1] q1 | e q1 | q1];
      try discriminate
  end.
  cbn [addMessage appendChild ret pageOf messages] in *.
  intros [= _ <-]. cbn [messages]. rewrite Hm.
  exists shown, (text (snd (h1, r1))). now rewrite app_assoc.
Qed.

(** X13. A run of [handleFormSubmit] on a prompt never lets an exception
    out.  When it is over, the loading state is off and the run has
    shown, after what was on the page, the prompt as a user message
    first and a model message last (the final answer or the error
    notice); until then the loading state stays on, so the form cannot
    be submitted again. *)
Theorem run_ends_idle_or_is_loading (W : World) (fuel : nat) (prompt : string)
    (p : Page) :
  prompt <> "" ->
  (exists q shown last,
      handleFormSubmit W fuel prompt p = Returned tt q
      /\ loading q = false
      /\ class last = model
      /\ messages q
         = (messages p ++ mkMessageEl user (TextContent prompt) :: shown
            ++ [last])%list)
  \/ (exists q,
         handleFormSubmit W fuel prompt p = Running q /\ loading q = true).
Proof.
  intros H. unfold handleFormSubmit.
  destruct (String.eqb_spec prompt "") as [E | _]; [contradiction|].
  set (p1 := mkPage (messages p ++ [mkMessageEl user (TextContent prompt)])
               true (requests p) (ticks p)).
  assert (Hstart :
            forall k : M unit,
              bind (fun p0 => Returned tt (setLoading true p0))
                (fun _ => bind (addMessage W (PString prompt) user) (fun _ => k))
                p
              = k p1) by reflexivity.
  rewrite Hstart.
  unfold tryFinally, tryCatch, bind.
  pose proof (tryBlock_sameLoading W fuel prompt p1) as Hl.
  destruct (Oblivious_messages (tryBlock W fuel prompt) p1
              (tryBlock_Oblivious W fuel prompt)) as [shown Hm].
  destruct (tryBlock W fuel prompt p1) as [h q | e q | q] eqn:Et.
  - left. destruct (tryBlock_returned W fuel prompt p1 h q Et)
      as [shown' [answer Hq]].
    exists (setLoading false q), shown',
      (mkMessageEl model (TextContent answer)).
    split; [reflexivity|]. split; [reflexivity|]. split; [reflexivity|].
    cbn [setLoading messages]. rewrite Hq. unfold p1. cbn [messages].
    now rewrite <- app_assoc.
  - left. cbn [addMessage appendChild]. cbn [pageOf] in Hm.
    eexists _, shown, errorNotice.
    split; [reflexivity|]. split; [reflexivity|]. split; [reflexivity|].
    cbn [setLoading messages]. rewrite Hm. unfold p1. cbn [messages].
    now rewrite <- !app_assoc.
  - right. exists q. split; [reflexivity|]. exact Hl.
Qed.

Lemma run_ends_idle_or_is_loading_witness :
  "Cool the room" <> ""
  /\ exists q,
      handleFormSubmit Sample.insistent 4 "Cool the room" Sample.emptyPage
      = Running q
      /\ loading q = true.
Proof.
  split; [discriminate|].
  destruct (run_ends_idle_or_is_loading Sample.insistent 4 "Cool the room"
              Sample.emptyPage ltac:(discriminate))
    as [[q [shown [last [H _]]]] | H].
  - vm_compute in H. discriminate H.
  - exact H.
Defined.

Lemma run_start (W : World) (prompt : string) (p : Page) (k : M unit) :
  bind (fun p0 => Returned tt (setLoading true p0))
    (fun _ => bind (addMessage W (PString prompt) user) (fun _ => k)) p
  = k (mkPage (messages p ++ [mkMessageEl user (TextContent prompt)]) true
         (requests p) (ticks p)).
Proof. reflexivity. Qed.

(** *** A model that never stops asking *)

Lemma whileLoop_keeps_running (W : World) (fuel : nat) :
  (forall n history, exists r,
      generateContent W n history = inr r /\ pendingCalls r <> []) ->
  forall history currentResponse p,
    pendingCalls currentResponse <> [] ->
    exists q,
      whileLoop W fuel history currentResponse p = Running q
      /\ List.length (requests q) = (List.length (requests p) + fuel)%nat.
Proof.
  intros HW. induction fuel as [|fuel IH]; intros history r p Hr;
    cbn [whileLoop]; destruct (pendingCalls r) eqn:E; try contradiction.
  - exists p. split; [reflexivity | lia].
  - destruct (iteration_spec W history r p) as [rs [shown [n [_ Hit]]]].
    cbv zeta in Hit. unfold bind. rewrite Hit.
    match goal with
    | |- context [generateContent W ?k ?h] =>
        destruct (HW k h) as [r' [-> Hr']]
    end.
    cbn [fst snd].
    match goal with
    | |- context [whileLoop W fuel ?h r' ?q] =>
        destruct (IH h r' q Hr') as [q' [-> Hq']]
    end.
    exists q'. split; [reflexivity|]. rewrite Hq'. cbn [requests].
    rewrite length_app. simpl. lia.
Qed.

(** X14. The loop has no bound of its own: with a model that asks for
    tools in every response, a run is still going after any number of
    passes, the loading state on, one more request sent to the model
    with every pass. *)
Theorem run_has_no_iteration_cap (W : World) (fuel : nat) (prompt : string)
    (p : Page) :
  (forall n history, exists r,
      generateContent W n history = inr r /\ pendingCalls r <> []) ->
  prompt <> "" ->
  exists q,
    handleFormSubmit W fuel prompt p = Running q
    /\ loading q = true
    /\ List.length (requests q) = (List.length (requests p) + 1 + fuel)%nat.
Proof.
  intros HW H. unfold handleFormSubmit.
  destruct (String.eqb_spec prompt "") as [E | _]; [contradiction|].
  rewrite run_start. set (p1 := mkPage _ true _ _).
  pose proof (tryBlock_sameLoading W fuel prompt p1) as Hl.
  unfold tryFinally, tryCatch, bind at 1.
  unfold tryBlock, bind in *. rewrite callModel_spec in *. cbv zeta in *.
  destruct (HW (ticks p1) [userMessage prompt]) as [r [Hg Hr]].
  rewrite Hg in *.
  unfold respond, bind in *.
  match goal with
  | |- context [whileLoop W fuel ?h r ?q] =>
      destruct (whileLoop_keeps_running W fuel HW h r q Hr) as [q' [Hq Hn]]
  end.
  rewrite Hq in *. exists q'. split; [reflexivity|]. split; [exact Hl|].
  rewrite Hn. cbn [requests p1]. rewrite length_app. simpl. lia.
Qed.

Lemma run_has_no_iteration_cap_witness :
  (forall n history, exists r,
      generateContent Sample.insistent n history = inr r
      /\ pendingCalls r <> [])
  /\ "Cool the room" <> ""
  /\ exists q,
      handleFormSubmit Sample.insistent 25 "Cool the room" Sample.emptyPage
      = Running q
      /\ loading q = true
      /\ List.length (requests q)
         = (List.length (requests Sample.emptyPage) + 1 + 25)%nat.
Proof.
  assert (HW : forall n history, exists r,
               generateContent Sample.insistent n history = inr r
               /\ pendingCalls r <> []).
  { intros n history. exists Sample.fanAgain. split; [reflexivity|discriminate]. }
  split; [exact HW|]. split; [discriminate|].
  apply (run_has_no_iteration_cap Sample.insistent 25 "Cool the room"
           Sample.emptyPage HW).
  discriminate.
Defined.

(** *** A model that fails, a model that does not *)

(** X15. When the first call of the model fails, the run ends at once:
    the page shows the prompt and the notice "An error occurred. Please
    check the console.", the loading state is off, the one request was
    sent and no tool was called. *)
Theorem model_failure_shows_the_notice (W : World) (fuel : nat)
    (prompt : string) (p : Page) (e : Exn) :
  prompt <> "" ->
  generateContent W (ticks p) [userMessage prompt] = inl e ->
  handleFormSubmit W fuel prompt p
  = Returned tt
      (mkPage
         (messages p ++ [mkMessageEl user (TextContent prompt); errorNotice])
         false (requests p ++ [[userMessage prompt]]) (S (ticks p))).
Proof.
  intros H Hg. unfold handleFormSubmit.
  destruct (String.eqb_spec prompt "") as [E | _]; [contradiction|].
  rewrite run_start. unfold tryFinally, tryCatch, bind at 1.
  unfold tryBlock, bind. rewrite callModel_spec. cbv zeta.
  cbn [ticks]. rewrite Hg.
  cbn [addMessage appendChild setLoading messages loading requests ticks].
  now rewrite <- app_assoc.
Qed.

Lemma model_failure_shows_the_notice_witness :
  "Hello" <> ""
  /\ handleFormSubmit Sample.modelDown 3 "Hello" Sample.emptyPage
     = Returned tt
         (mkPage [mkMessageEl user (TextContent "Hello"); errorNotice] false
            [[userMessage "Hello"]] 1).
Proof.
  split; [discriminate|].
  apply (model_failure_shows_the_notice Sample.modelDown 3 "Hello"
           Sample.emptyPage (mkExn "503 Service Unavailable"));
    [discriminate | reflexivity].
Defined.

(** The boxes of a batch are tool boxes. *)
Lemma headers_toolBox (calls : list FunctionCall) :
  forall shown,
    map header shown
    = flat_map (fun call => [ (tool_call, Some (name call));
                              (tool_result, Some (name call)) ]) calls ->
    Forall toolBox shown.
Proof.
  induction calls as [|call rest IH]; intros shown H.
  - destruct shown; [constructor | discriminate].
  - destruct shown as [|a [|b shown]]; try discriminate.
    cbn [flat_map app map] in H. unfold header at 1 2 in H.
    injection H as Ha _ Hb _ H.
    constructor; [now left|]. constructor; [now right|]. now apply IH.
Qed.

(** One pass of the loop shows tool boxes only. *)
Lemma iteration_boxes (W : World) (history : list Content)
    (currentResponse : Response) p :
  exists toolResponses shown n,
    Forall toolBox shown
    /\ let history' :=
         (history ++ [candidate0 currentResponse; toolTurn toolResponses])%list in
       let p' := mkPage (messages p ++ shown) (loading p)
                   (requests p ++ [history']) (S (ticks p + n)) in
       iteration W history currentResponse p
       = match generateContent W (ticks p + n) history' with
         | inr r => Returned (history', r) p'
         | inl e => Thrown e p'
         end.
Proof.
  destruct (forEachCall_boxes W (pendingCalls currentResponse) [] p)
    as [rs [shown [n [E [Hh _]]]]].
  exists rs, shown, n. split; [now apply (headers_toolBox _ _ Hh)|].
  unfold iteration, bind. rewrite E, callModel_spec. simpl.
  rewrite <- app_assoc. simpl.
  now destruct (generateContent W (ticks p + n) _).
Qed.

(** With a model that always answers, the loop never throws; the
    response it is left with is the answer of the model to the last
    request sent, and it asks for no tool; and all the loop has shown is
    tool boxes. *)
Lemma whileLoop_with_working_model (W : World) (fuel : nat) :
  (forall n history, exists r, generateContent W n history = inr r) ->
  forall history currentResponse p n0,
    generateContent W n0 history = inr currentResponse ->
    last (requests p) [] = history ->
    (exists h r q shown n,
        whileLoop W fuel history currentResponse p = Returned (h, r) q
        /\ generateContent W n (last (requests q) []) = inr r
        /\ textOnly r
        /\ Forall toolBox shown
        /\ messages q = (messages p ++ shown)%list)
    \/ (exists q, whileLoop W fuel history currentResponse p = Running q).
Proof.
  intros HW. induction fuel as [|fuel IH]; intros history r p n0 Hn0 Hlast;
    cbn [whileLoop]; destruct (pendingCalls r) eqn:E.
  - left. exists history, r, p, [], n0. rewrite Hlast, app_nil_r.
    repeat split; [exact Hn0 | now apply pendingCalls_textOnly | constructor].
  - right. now exists p.
  - left. exists history, r, p, [], n0. rewrite Hlast, app_nil_r.
    repeat split; [exact Hn0 | now apply pendingCalls_textOnly | constructor].
  - destruct (iteration_boxes W history r p) as [rs [shown [n [Hbox Hit]]]].
    cbv zeta in Hit. unfold bind. rewrite Hit.
    match goal with
    | |- context [generateContent W ?k ?h] =>
        destruct (HW k h) as [r' Hr']; rewrite Hr'
    end.
    cbn [fst snd].
    match goal with
    | |- context [whileLoop W fuel ?h r' ?q] =>
        destruct (IH h r' q _ Hr') as [[h1 [r1 [q1 [shown1 [n1 H]]]]] | [q1 H]]
    end.
    + cbn [requests]. apply last_last.
    + destruct H as [Hq [Hg [Ht [Hb Hm]]]]. left.
      exists h1, r1, q1, (shown ++ shown1)%list, n1.
      split; [exact Hq|]. split; [exact Hg|]. split; [exact Ht|].
      split; [now apply Forall_app|].
      rewrite Hm. cbn [messages]. now rewrite app_assoc.
    + right. now exists q1.
Qed.

Lemma tryBlock_answered (W : World) (fuel : nat) (prompt : string) p r0 :
  generateContent W (ticks p) [userMessage prompt] = inr r0 ->
  tryBlock W fuel prompt p
  = match whileLoop W fuel [userMessage prompt] r0
            (mkPage (messages p) (loading p)
               (requests p ++ [[userMessage prompt]]) (S (ticks p))) with
    | Returned hr q =>
        Returned (fst hr)
          (advance q [mkMessageEl model (TextContent (text (snd hr)))] 0)
    | Thrown e q => Thrown e q
    | Running q => Running q
    end.
Proof.
  intros H. unfold tryBlock, bind. rewrite callModel_spec. cbv zeta.
  rewrite H. unfold respond, bind.
  destruct (whileLoop W fuel [userMessage prompt] r0 _) as [hr q | e q | q];
    try reflexivity.
  cbn [addMessage appendChild ret]. unfold advance. now rewrite Nat.add_0_r.
Qed.

Lemma tryBlock_with_working_model (W : World) (fuel : nat) (prompt : string) :
  (forall n history, exists r, generateContent W n history = inr r) ->
  forall p,
    (exists h q shown n r,
        tryBlock W fuel prompt p = Returned h q
        /\ generateContent W n (last (requests q) []) = inr r
        /\ textOnly r
        /\ Forall toolBox shown
        /\ messages q
           = (messages p ++ shown
              ++ [mkMessageEl model (TextContent (text r))])%list)
    \/ (exists q, tryBlock W fuel prompt p = Running q).
Proof.
  intros HW p.
  destruct (HW (ticks p) [userMessage prompt]) as [r0 Hg].
  rewrite (tryBlock_answered W fuel prompt p r0 Hg).
  set (p1 := mkPage _ _ _ _).
  destruct (whileLoop_with_working_model W fuel HW [userMessage prompt] r0 p1
              _ Hg)
    as [[h [r [q [shown [n [Hq [Hn [Hr [Hb Hm]]]]]]]]] | [q Hq]].
  - unfold p1. cbn [requests]. apply last_last.
  - rewrite Hq. left. eexists h, _, shown, n, r. split; [reflexivity|].
    unfold advance. cbn [requests messages fst snd].
    split; [exact Hn|]. split; [exact Hr|]. split; [exact Hb|].
    rewrite Hm. unfold p1. cbn [messages]. now rewrite <- app_assoc.
  - rewrite Hq. right. now exists q.
Qed.

(** X16. Failures of tools never reach the user as the error notice.
    With a model that answers every call, whatever the tools do (unknown
    names, missing arguments, no network, results that cannot be drawn),
    the [try] block never throws, so the [catch] that shows the notice
    has nothing to catch; a run that is over has shown the prompt, then
    tool boxes only, then, last, the text of the response the model gave
    to the last request sent, a response that asks for no tool.  The
    notice is kept for failures of the model itself. *)
Theorem tool_failures_never_show_the_notice (W : World) (fuel : nat)
    (prompt : string) (p : Page) :
  (forall n history, exists r, generateContent W n history = inr r) ->
  prompt <> "" ->
  (forall p', thrown (tryBlock W fuel prompt p') = None)
  /\ ((exists q shown n r,
          handleFormSubmit W fuel prompt p = Returned tt q
          /\ generateContent W n (last (requests q) []) = inr r
          /\ textOnly r
          /\ Forall toolBox shown
          /\ messages q
             = (messages p ++ mkMessageEl user (TextContent prompt) :: shown
                ++ [mkMessageEl model (TextContent (text r))])%list)
      \/ (exists q, handleFormSubmit W fuel prompt p = Running q)).
Proof.
  intros HW H. split.
  - intros p'.
    destruct (tryBlock_with_working_model W fuel prompt HW p')
      as [[h [q [shown [n [r [Hq _]]]]]] | [q Hq]]; now rewrite Hq.
  - unfold handleFormSubmit.
    destruct (String.eqb_spec prompt "") as [E | _]; [contradiction|].
    rewrite run_start. set (p1 := mkPage _ true _ _).
    unfold tryFinally, tryCatch, bind.
    destruct (tryBlock_with_working_model W fuel prompt HW p1)
      as [[h [q [shown [n [r [Hq [Hn [Hr [Hb Hm]]]]]]]]] | [q Hq]]; rewrite Hq.
    + left. exists (setLoading false q), shown, n, r.
      split; [reflexivity|]. split; [exact Hn|]. split; [exact Hr|].
      split; [exact Hb|].
      cbn [setLoading messages]. rewrite Hm. unfold p1. cbn [messages].
      now rewrite <- !app_assoc.
    + right. now exists q.
Qed.

Lemma tool_failures_never_show_the_notice_witness :
  (forall n history, exists r,
      generateContent Sample.agentic n history = inr r)
  /\ "Cool the room" <> ""
  /\ thrown (tryBlock Sample.agentic 2 "Cool the room" Sample.emptyPage)
     = None.
Proof.
  assert (HW : forall n history, exists r,
               generateContent Sample.agentic n history = inr r).
  { intros n history. unfold Sample.agentic. cbn [generateContent].
    destruct (List.length history <=? 1)%nat; eauto. }
  assert (Hp : "Cool the room" <> "") by discriminate.
  split; [exact HW|]. split; [exact Hp|].
  exact (proj1 (tool_failures_never_show_the_notice Sample.agentic 2
                  "Cool the room" Sample.emptyPage HW Hp)
           Sample.emptyPage).
Defined.

(** In the sample run the three calls fail or succeed, and the run ends
    with the answer of the model. *)
Example agentic_run_ends_with_the_answer :
  last (messages (pageOf (handleFormSubmit Sample.agentic 2 "Cool the room"
                            Sample.emptyPage)))
    errorNotice
  = mkMessageEl model (TextContent "It is noon.").
Proof. reflexivity. Qed.

(** *** The page before the run *)

Lemma handleFormSubmit_Oblivious (W : World) fuel prompt :
  Oblivious (handleFormSubmit W fuel prompt).
Proof.
  unfold handleFormSubmit. destruct (String.eqb prompt "").
  - apply Oblivious_ret.
  - apply Oblivious_bind; [now intros p q | intros _].
    apply Oblivious_bind; [apply addMessage_Oblivious | intros _].
    apply Oblivious_tryFinally. apply Oblivious_tryCatch.
    + apply Oblivious_bind; [apply tryBlock_Oblivious | intros h].
      apply Oblivious_ret.
    + intros e. apply addMessage_Oblivious.
Qed.

(** X17. The message list is only ever appended to, and what is on it
    has no influence on a run: on a page that already shows messages a
    run ends the same way and shows the same new messages, after the old
    ones, as on a blank page; an empty prompt changes nothing at all. *)
Theorem run_only_appends_messages (W : World) (fuel : nat) (prompt : string)
    (p : Page) :
  let blank := mkPage [] (loading p) [] (ticks p) in
  messages (pageOf (handleFormSubmit W fuel prompt p))
  = (messages p ++ messages (pageOf (handleFormSubmit W fuel prompt blank)))%list
  /\ returned (handleFormSubmit W fuel prompt p)
     = returned (handleFormSubmit W fuel prompt blank)
  /\ handleFormSubmit W fuel "" p = Returned tt p.
Proof.
  intros blank.
  assert (E : p = graft p blank).
  { destruct p. unfold graft, blank. simpl. now rewrite !app_nil_r. }
  assert (Hc : handleFormSubmit W fuel prompt p
               = onPage (graft p) (handleFormSubmit W fuel prompt blank)).
  { rewrite <- handleFormSubmit_Oblivious. now rewrite <- E. }
  rewrite Hc.
  destruct (handleFormSubmit W fuel prompt blank) as [a q | e q | q];
    repeat split.
Qed.

(** *** The shape of the history *)




(** In the sample run with three calls, the second request is the user
    turn and one round. *)
Example agentic_second_request :
  nth_error
    (requests (pageOf (handleFormSubmit Sample.agentic 1 "Cool the room"
                         Sample.emptyPage))) 1
  = Some (rounds "Cool the room"
            [ (Sample.threeCalls,
               [ mkToolResponse "launchRocket" (unknownFailure "launchRocket");
                 mkToolResponse "search_github_repo"
                   (searchFailure (mkExn "Failed to fetch"));
                 mkToolResponse "controlFan"
                   (VObj [ ("status", VStr "success");
                           ("message",
                            VStr "Fan set to 75% speed in high mode.") ]) ]) ]).
Proof. reflexivity. Qed.

End RunFacts.
